(** * Yt video pipeline: stage bodies, orchestration and their properties

    A shallow embedding of the pipeline code of [web-app/backend]:
    - [services/step2_silence.py]  (silence trimming, [get_speech_segments]),
    - [services/step5_shorts.py]   (window snapping and short creation),
    - [services/step7_integrate_broll.py],
    - [services/database.py], [tasks.py] and [routers/projects.py]
      (registry updates, stage bodies, chains, reboot, manual upload),
    - [services/step3_cut_sources.py] and [services/step10_schedule.py],
    - the other endpoints of [routers/projects.py]: create, delete, start,
      stop and cut.

    Timestamps are Python floats in the source; they are embedded as exact
    rationals [Q], so comparisons and sums are the mathematical ones.
    The media encoder, the language model and the broker are external to the
    code and appear as explicit oracles or explicit state. *)

From Stdlib Require Import QArith Qminmax Lqa ZArith Lia List Ascii.
From Stdlib Require PrimFloat Uint63.
From stdpp Require Import gmap strings list pretty.

(** ** Rational helpers *)

Module QAux.
Local Open Scope Q_scope.

(** Python's [a < b] on floats. *)
Definition Qltb (a b : Q) : bool :=
  match a ?= b with Lt => true | _ => false end.

(** Python's [a <= b] on floats. *)
Definition Qleb (a b : Q) : bool :=
  match a ?= b with Gt => false | _ => true end.

(** Python's [abs]. *)
Definition Qabsv (a : Q) : Q := if Qltb a 0 then - a else a.

End QAux.

(** ** services/step2_silence.py *)

Module Step2Silence.
Import QAux.
Local Open Scope Q_scope.

(** A detected silence, [{'start': float, 'end': float | None}]:
    [detect_silences] appends [{'start': .., 'end': None}] on a
    [silence_start] line and fills [end] on the next [silence_end] line. *)
Record silence := mkSilence { sil_start : Q; sil_end : option Q }.

(** A kept segment, [{'start': float, 'end': float}]. *)
Record segment := mkSegment { seg_start : Q; seg_end : Q }.

Definition DEFAULT_PADDING : Q := 1 # 10.

(** [s['end'] if s['end'] else s['start']]: [None] and [0.0] are falsy. *)
Definition end_or_start (s : silence) : Q :=
  match sil_end s with
  | Some e => if Qeq_bool e 0 then sil_start s else e
  | None => sil_start s
  end.

(** One iteration of the first loop of [get_speech_segments]; the loop
    state is [(segments, last_end)]. *)
Definition speech_step (total_duration padding : Q)
    (st : list segment * Q) (s : silence) : list segment * Q :=
  let '(segments, last_end) := st in
  let start := if Qltb 0 last_end then Qmax 0 (last_end - padding) else last_end in
  let stop := Qmin total_duration (sil_start s + padding) in
  let segments' :=
    if Qltb (start + (1 # 10)) stop
    then segments ++ [mkSegment start stop]
    else segments in
  (segments', end_or_start s).

(** One iteration of the merging loop; [merged[-1]] is the last element. *)
Definition merge_step (merged : list segment) (seg : segment) : list segment :=
  match last merged with
  | Some m =>
      if Qltb (seg_start seg - seg_end m) (1 # 2)
      then removelast merged ++ [mkSegment (seg_start m) (seg_end seg)]
      else merged ++ [seg]
  | None => merged ++ [seg]
  end.

Definition get_speech_segments (silences : list silence)
    (total_duration padding : Q) : list segment :=
  let '(segments, last_end) :=
    fold_left (speech_step total_duration padding) silences ([], 0) in
  let segments :=
    if Qltb last_end total_duration
    then segments ++ [mkSegment (Qmax 0 (last_end - padding)) total_duration]
    else segments in
  fold_left merge_step segments [].

(** The document [remove_silences] dumps into [segments.json]. *)
Record segments_json := mkSegmentsJson {
  sj_segments : list segment;
  sj_silences : list silence;
  sj_original_duration : Q;
  sj_threshold_db : Z;
  sj_min_silence : Q;
  sj_padding : Q
}.

(** The part of [remove_silences] between the duration probe and the
    encoder call: the segments computed from the detected silences and the
    document written to [segments.json]. *)
Definition segments_document (silences : list silence) (duration : Q)
    (threshold_db : Z) (min_silence padding : Q) : segments_json :=
  mkSegmentsJson (get_speech_segments silences duration padding)
                 silences duration threshold_db min_silence padding.

(** *** The stage as the specification words it

    "Compute kept segments as the complement of the silence set, extended
    by a padding on each side, and then merge any two kept segments whose
    gap after padding is under 0.5 s." *)















End Step2Silence.

(** ** services/step5_shorts.py *)

Module Step5Shorts.
Import QAux.
Local Open Scope Q_scope.

Definition OUTRO_DURATION : Q := 4.
Definition MAX_SHORT_TOTAL : Q := 30.
Definition MAX_SHORT_CONTENT : Q := MAX_SHORT_TOTAL - OUTRO_DURATION.

(** A segment of [transcription.json]; a key may be missing from the
    dictionary, the code reads it with [seg.get(key, 0)]. *)
Record transcript_segment := mkTranscriptSegment {
  ts_start : option Q;
  ts_end : option Q;
  ts_text : string
}.

Definition get_start (seg : transcript_segment) : Q := default 0 (ts_start seg).
Definition get_end (seg : transcript_segment) : Q := default 0 (ts_end seg).

(** One iteration of a nearest-value loop: the state is
    [(best, min_diff)], where [None] stands for [float('inf')]. *)
Definition nearest_step (target : Q) (st : Q * option Q) (v : Q) : Q * option Q :=
  let diff := Qabsv (v - target) in
  match snd st with
  | Some min_diff => if Qltb diff min_diff then (v, Some diff) else st
  | None => (v, Some diff)
  end.

Definition nearest (target : Q) (values : list Q) : Q :=
  fst (fold_left (nearest_step target) values (target, None)).

Definition snap_to_segment_boundaries (start stop : Q)
    (segments : list transcript_segment) : Q * Q :=
  match segments with
  | [] => (start, stop)
  | _ =>
      let best_start := nearest start (map get_start segments) in
      let best_end := nearest stop (map get_end segments) in
      let best_end := if Qleb best_end best_start then best_start + 15 else best_end in
      (best_start, best_end)
  end.

(** A suggestion returned by the language model, [{title, start, end,
    description}]; every key is read with a default. *)
Record suggestion := mkSuggestion {
  sug_title : option string;
  sug_start : option Q;
  sug_end : option Q;
  sug_description : string
}.

(** What [create_short] depends on outside the window: the two sources
    and the encoder run ([None] is a failed run, [Some path] the file it
    produced). *)
Record studio := mkStudio {
  has_screen : bool;
  has_webcam : bool;
  encode : string -> Q -> Q -> option string
}.

Record short_result := mkShortResult {
  sr_success : bool;
  sr_error : option string;
  sr_output_path : option string;
  sr_duration : Q
}.

Definition create_short (env : studio) (title : string) (start stop : Q) : short_result :=
  let duration := stop - start in
  if negb (has_screen env) then mkShortResult false (Some "screen non trouve") None duration
  else if negb (has_webcam env) then mkShortResult false (Some "webcam non trouve") None duration
  else if Qltb duration 3 || Qltb MAX_SHORT_CONTENT duration
  then mkShortResult false (Some "Duree invalide") None duration
  else match encode env title start stop with
       | Some path => mkShortResult true None (Some path) duration
       | None => mkShortResult false (Some "Erreur FFmpeg") None duration
       end.

(** An entry of [result['shorts']]. *)
Record short := mkShort {
  sh_title : string;
  sh_start : Q;
  sh_end : Q;
  sh_path : option string;
  sh_duration : Q
}.

Record shorts_result := mkShortsResult {
  shorts_success : bool;
  shorts_error : option string;
  shorts : list short
}.

(** [title.lower()] contains ["#shorts"]: the test is an oracle on titles,
    it only decides the suffix. *)
Definition short_title (tagged : string -> bool) (i : nat) (sug : suggestion) : string :=
  let title := default ("Short " +:+ pretty (S i)) (sug_title sug) in
  if tagged title then title else title +:+ " #shorts".

(** The window [generate_shorts] hands to [create_short] for a suggestion. *)
Definition adjusted_window (segments : list transcript_segment) (sug : suggestion) : Q * Q :=
  let start := default 0 (sug_start sug) in
  let stop := default 30 (sug_end sug) in
  match segments with
  | [] => (start, stop)
  | _ => snap_to_segment_boundaries start stop segments
  end.

(** The body of the [for i, sug in enumerate(suggestions)] loop. *)
Definition shorts_step (env : studio) (tagged : string -> bool)
    (segments : list transcript_segment)
    (acc : list short) (isug : nat * suggestion) : list short :=
  let '(i, sug) := isug in
  let title := short_title tagged i sug in
  let '(start, stop) := adjusted_window segments sug in
  let short_result := create_short env title start stop in
  if sr_success short_result
  then acc ++ [mkShort title start stop (sr_output_path short_result)
                       (sr_duration short_result)]
  else acc.

(** [generate_shorts]: [suggestions] is what [suggest_shorts] returned,
    [segments] the segments of [transcription.json] ([[]] when the file is
    absent).  The first component is the document written to
    [shorts_suggestions.json] ([None]: the file is not written). *)
Definition generate_shorts (env : studio) (tagged : string -> bool)
    (suggestions : list suggestion) (segments : list transcript_segment)
    : option (list suggestion) * shorts_result :=
  match suggestions with
  | [] => (None, mkShortsResult true None [])
  | _ =>
      let made := fold_left (shorts_step env tagged segments)
                            (imap (fun i sug => (i, sug)) suggestions) [] in
      (Some suggestions, mkShortsResult true None made)
  end.

(** The time window a suggestion of [shorts_suggestions.json] records. *)
Definition suggestion_window (sug : suggestion) : Q * Q :=
  (default 0 (sug_start sug), default 30 (sug_end sug)).

(** A window of 3 to 26 seconds whose ends are segment boundaries. *)
Definition window_on_boundaries (segments : list transcript_segment) (w : Q * Q) : Prop :=
  (3 <= snd w - fst w /\ snd w - fst w <= 26)
  /\ (exists seg, In seg segments /\ get_start seg == fst w)
  /\ (exists seg, In seg segments /\ get_end seg == snd w).

(** [v] is a value of the list at minimal distance from [target]. *)
Definition closest (target : Q) (values : list Q) (v : Q) : Prop :=
  In v values /\ forall u, In u values -> Qabsv (v - target) <= Qabsv (u - target).

(** The state of a nearest-value loop after the values [seen]: the best
    value is one of them, the recorded distance is its own, and no seen
    value is closer to the target. *)
Definition tracks (target : Q) (seen : list Q) (st : Q * option Q) : Prop :=
  snd st = Some (Qabsv (fst st - target))
  /\ In (fst st) seen
  /\ forall u, In u seen -> Qabsv (fst st - target) <= Qabsv (u - target).

(** A created short lasts 3 to 26 seconds. *)
Definition short_in_bounds (sh : short) : Prop :=
  3 <= sh_end sh - sh_start sh /\ sh_end sh - sh_start sh <= 26.

(** A created short starts on a segment start and ends on a segment end
    or 15 seconds after its start. *)
Definition short_on_boundaries (segments : list transcript_segment) (sh : short) : Prop :=
  (exists seg, In seg segments /\ get_start seg = sh_start sh)
  /\ ((exists seg, In seg segments /\ get_end seg = sh_end sh)
      \/ sh_end sh = sh_start sh + 15).

End Step5Shorts.

(** ** The artifact directory *)

Module Artifacts.

(** A B-roll clip of [broll_clips.json]. *)
Record clip := mkClip { clip_path : string; clip_timestamp : Q; clip_duration : Q }.

(** File contents.  A media file is an opaque stream (its identity stands
    for its bytes); the JSON side-files the stages exchange are kept as the
    documents they hold. *)
Inductive content :=
| Media (stream : N)
| SegmentsDoc (doc : Step2Silence.segments_json)
| ClipsDoc (clips : list clip)
| Text (body : string).

Inductive entry :=
| File (c : content)
| Folder.

(** A project directory, by entry name, and the file system, by the path
    of the project directory. *)
Abbreviation directory := (gmap string entry).
Abbreviation filesystem := (gmap string (gmap string entry)).

(** The external media tools: [ffprobe]'s duration, the silences parsed
    from [silencedetect]'s report, and the select-and-concatenate encoder
    run ([None]: non-zero exit, no output). *)
Record codec := mkCodec {
  probe_duration : content -> Q;
  silencedetect : content -> Z -> Q -> list Step2Silence.silence;
  select_encode : content -> list Step2Silence.segment -> option content
}.

(** What a service call yields: its result dictionary, or an exception. *)
Inductive attempt (A : Type) :=
| Done (a : A)
| Raise (msg : string).
Arguments Done {A} a.
Arguments Raise {A} msg.

(** The [{success, error, ...}] dictionary common to the services. *)
Record result := mkResult { success : bool; error : option string }.

(** [open(path, 'w')] followed by a dump: replaces a file, fails on a
    directory of that name. *)
Definition write_file (name : string) (c : content) (dir : directory) : option directory :=
  match dir !! name with
  | Some Folder => None
  | _ => Some (<[name := File c]> dir)
  end.

(** [shutil.copy(src, dst)] inside one directory: a file [dst] is
    replaced; when [dst] is a directory the copy lands inside it and the
    entry [dst] stays a directory. *)
Definition copy_file (c : content) (dst : string) (dir : directory) : directory :=
  match dir !! dst with
  | Some Folder => dir
  | _ => <[dst := File c]> dir
  end.

End Artifacts.

(** ** services/step2_silence.py, [remove_silences] *)

Module Step2Stage.
Import Artifacts Step2Silence.

(** [remove_silences(video_folder, threshold_db, min_silence, padding)] on
    the project directory.  The scratch directory [temp_segments] is
    created and removed within the call. *)
Definition remove_silences (ff : codec) (threshold_db : Z) (min_silence padding : Q)
    (dir : directory) : directory * attempt result :=
  match dir !! "original.mp4" with
  | None => (dir, Done (mkResult false (Some "original.mp4 manquant")))
  | Some Folder => (dir, Raise "ffprobe: no duration")
  | Some (File input) =>
      let duration := probe_duration ff input in
      let silences := silencedetect ff input threshold_db min_silence in
      let doc := segments_document silences duration threshold_db min_silence padding in
      match write_file "segments.json" (SegmentsDoc doc) dir with
      | None => (dir, Raise "segments.json is a directory")
      | Some dir1 =>
          match dir1 !! "nosilence.mp4" with
          | Some Folder => (dir1, Raise "nosilence.mp4 is a directory")
          | _ =>
              let dir2 := delete "temp_segments" (delete "nosilence.mp4" dir1) in
              match select_encode ff input (sj_segments doc) with
              | Some output =>
                  (<["nosilence.mp4" := File output]> dir2, Done (mkResult true None))
              | None => (dir2, Done (mkResult false (Some "ffmpeg")))
              end
          end
      end
  end.

End Step2Stage.

(** ** services/step7_integrate_broll.py *)

Module Step7IntegrateBroll.
Import Artifacts.

(** [integrate_broll(video_folder)].  [overlay] stands for the remainder
    of the function once there are clips to integrate: clip preparation
    and the overlay encoder run. *)
Definition integrate_broll
    (overlay : content -> list clip -> directory -> directory * attempt result)
    (dir : directory) : directory * attempt result :=
  match dir !! "nosilence.mp4" with
  | None => (dir, Done (mkResult false (Some "nosilence.mp4 manquant")))
  | Some input =>
      let loaded :=
        match dir !! "broll_clips.json" with
        | None => Done []
        | Some (File (ClipsDoc clips)) => Done clips
        | Some _ => Raise "broll_clips.json: cannot load"
        end in
      match loaded with
      | Raise msg => (dir, Raise msg)
      | Done [] =>
          match input with
          | File c => (copy_file c "illustrated.mp4" dir, Done (mkResult true None))
          | Folder => (dir, Raise "nosilence.mp4 is a directory")
          end
      | Done clips =>
          match input with
          | File c => overlay c clips dir
          | Folder => (dir, Raise "nosilence.mp4 is a directory")
          end
      end
  end.

End Step7IntegrateBroll.

(** ** services/database.py *)

Module Database.

(** A project document of the [projects] collection (the fields the
    pipeline reads or sets; [updated_at] time stamps are left out). *)
Record project := mkProject {
  folder_name : string;
  status : string;
  current_step : option Z;
  step_name : option string;
  progress : Z;
  steps : list (string * string);
  outputs : list (string * string);
  celery_task_id : option string;
  error : option string
}.

(** One key of an [updates] dictionary passed to [$set]. *)
Inductive assignment :=
| set_status (v : string)
| set_current_step (v : option Z)
| set_step_name (v : option string)
| set_progress (v : Z)
| set_steps (v : list (string * string))
| set_outputs (v : list (string * string))
| set_celery_task_id (v : option string)
| set_error (v : string).

Definition assign (p : project) (a : assignment) : project :=
  match a with
  | set_status v =>
      mkProject (folder_name p) v (current_step p) (step_name p) (progress p)
                (steps p) (outputs p) (celery_task_id p) (error p)
  | set_current_step v =>
      mkProject (folder_name p) (status p) v (step_name p) (progress p)
                (steps p) (outputs p) (celery_task_id p) (error p)
  | set_step_name v =>
      mkProject (folder_name p) (status p) (current_step p) v (progress p)
                (steps p) (outputs p) (celery_task_id p) (error p)
  | set_progress v =>
      mkProject (folder_name p) (status p) (current_step p) (step_name p) v
                (steps p) (outputs p) (celery_task_id p) (error p)
  | set_steps v =>
      mkProject (folder_name p) (status p) (current_step p) (step_name p) (progress p)
                v (outputs p) (celery_task_id p) (error p)
  | set_outputs v =>
      mkProject (folder_name p) (status p) (current_step p) (step_name p) (progress p)
                (steps p) v (celery_task_id p) (error p)
  | set_celery_task_id v =>
      mkProject (folder_name p) (status p) (current_step p) (step_name p) (progress p)
                (steps p) (outputs p) v (error p)
  | set_error v =>
      mkProject (folder_name p) (status p) (current_step p) (step_name p) (progress p)
                (steps p) (outputs p) (celery_task_id p) (Some v)
  end.

(** The registry: the connection state and the collection, documents in
    their natural order, each under its [_id]. *)
Record database := mkDatabase {
  connected : bool;
  projects : list (string * project)
}.

Definition is_connected (db : database) : bool := connected db.

(** [find_one({"_id": ...})]: the first document with that id. *)
Fixpoint find_id (project_id : string) (docs : list (string * project))
    : option project :=
  match docs with
  | [] => None
  | (i, p) :: rest =>
      if bool_decide (i = project_id) then Some p else find_id project_id rest
  end.

(** [find_one({"folder_name": ...})]: the first document of that folder,
    with its id. *)
Fixpoint find_folder (name : string) (docs : list (string * project))
    : option (string * project) :=
  match docs with
  | [] => None
  | (i, p) :: rest =>
      if bool_decide (folder_name p = name) then Some (i, p) else find_folder name rest
  end.

(** [update_one({"_id": ...}, {"$set": updates})]. *)
Fixpoint update_one (project_id : string) (updates : list assignment)
    (docs : list (string * project)) : list (string * project) :=
  match docs with
  | [] => []
  | (i, p) :: rest =>
      if bool_decide (i = project_id)
      then (i, fold_left assign updates p) :: rest
      else (i, p) :: update_one project_id updates rest
  end.

Definition get_project (db : database) (project_id : string) : option project :=
  if is_connected db then find_id project_id (projects db) else None.

Definition get_project_by_folder (db : database) (name : string)
    : option (string * project) :=
  if is_connected db then find_folder name (projects db) else None.

Definition update_project (db : database) (project_id : string)
    (updates : list assignment) : database :=
  if is_connected db
  then mkDatabase (connected db) (update_one project_id updates (projects db))
  else db.

(** [_id] is the primary key of the collection. *)
Definition unique_ids (d : database) : Prop := NoDup (map fst (projects d)).

End Database.

(** ** tasks.py *)

Module Tasks.
Import Artifacts Database.
Local Open Scope Z_scope.

Definition TOTAL_STEPS : Z := 12.

Definition STEP_NAMES (step : Z) : option string :=
  if step =? 0 then Some "Conversion 60fps"
  else if step =? 1 then Some "Fusion vidéos"
  else if step =? 2 then Some "Suppression silences"
  else if step =? 3 then Some "Découpe sources"
  else if step =? 4 then Some "Transcription"
  else if step =? 5 then Some "Génération shorts"
  else if step =? 6 then Some "Téléchargement B-roll"
  else if step =? 7 then Some "Intégration B-roll"
  else if step =? 8 then Some "Génération SEO"
  else if step =? 9 then Some "Génération miniature"
  else if step =? 10 then Some "Programmation YouTube"
  else if step =? 11 then Some "Upload YouTube"
  else None.

(** [int((step / TOTAL_STEPS) * 100)]: the quotient truncated towards 0. *)
Definition progress_percent (step : Z) : Z := Z.quot (step * 100) TOTAL_STEPS.

(** The same expression on binary64 floats, as Python evaluates it:
    [step / TOTAL_STEPS] rounded, times 100 rounded. *)
Definition float_of (k : Z) : PrimFloat.float :=
  PrimFloat.of_uint63 (Uint63.of_Z k).

Definition progress_float (step : Z) : PrimFloat.float :=
  PrimFloat.mul (PrimFloat.div (float_of step) (float_of TOTAL_STEPS)) (float_of 100).

(** [int(x) = n] for a float [x] that is not negative: [n <= x < n + 1]. *)
Definition truncates_to (x : PrimFloat.float) (n : Z) : bool :=
  PrimFloat.leb (float_of n) x && PrimFloat.ltb x (float_of (n + 1)).

(** [Path(video_folder).name]: what follows the last [/]. *)
Fixpoint name_after (path acc : string) : string :=
  match path with
  | EmptyString => acc
  | String c rest =>
      if bool_decide (c = "/"%char) then name_after rest EmptyString
      else name_after rest (acc +:+ String c EmptyString)
  end.

Definition path_name (video_folder : string) : string :=
  name_after video_folder EmptyString.

(** A string used as a condition: empty is falsy. *)
Definition truthy (v : option string) : bool :=
  match v with
  | Some v => negb (bool_decide (v = EmptyString))
  | None => false
  end.

(** The [update_data] dictionary of [update_project_status]. *)
Definition update_data (step : Z) (status : string) (error : option string)
    : list assignment :=
  [ set_status status;
    set_current_step (Some step);
    set_step_name (Some (default ("Étape " +:+ pretty step) (STEP_NAMES step)));
    set_progress (progress_percent step) ]
  ++ (if truthy error then [set_error (default EmptyString error)] else [])
  ++ (if bool_decide (status = "completed") then [set_progress 100] else []).

Definition update_project_status (db : database) (video_folder : string)
    (step : Z) (status : string) (error : option string) : database :=
  match get_project_by_folder db (path_name video_folder) with
  | Some (project_id, _) => update_project db project_id (update_data step status error)
  | None => db
  end.

(** *** The broker *)

Inductive task :=
| step0_convert | step1_merge | step2_silence | step3_cut_sources
| step4_transcribe | step5_shorts | step6_broll | step7_integrate_broll
| step8_seo | step9_thumbnail | step10_schedule | step11_upload.

Definition stage_of (t : task) : Z :=
  match t with
  | step0_convert => 0 | step1_merge => 1 | step2_silence => 2
  | step3_cut_sources => 3 | step4_transcribe => 4 | step5_shorts => 5
  | step6_broll => 6 | step7_integrate_broll => 7 | step8_seo => 8
  | step9_thumbnail => 9 | step10_schedule => 10 | step11_upload => 11
  end.

(** The value passed from a stage to the next,
    [{'success': .., 'step': .., 'video_folder': ..}]. *)
Record continuation := mkContinuation {
  c_success : bool;
  c_step : option Z;
  c_video_folder : string
}.

Inductive argument :=
| folder (video_folder : string)
| previous (c : continuation).

(** A task signature, [task.s()] or [task.s(arg)]. *)
Record signature := mkSignature { sig_task : task; sig_arg : option argument }.

Definition s (t : task) : signature := mkSignature t None.
Definition s_of (t : task) (a : argument) : signature := mkSignature t (Some a).

Definition stages (c : list signature) : list Z := map (fun sg => stage_of (sig_task sg)) c.

(** The chain [process_full_pipeline] builds and submits. *)
Definition process_full_pipeline (video_folder : string) : list signature :=
  [ s_of step1_merge (folder video_folder);
    s step2_silence; s step3_cut_sources; s step4_transcribe; s step5_shorts;
    s step6_broll; s step7_integrate_broll; s step8_seo; s step9_thumbnail;
    s step10_schedule ].

(** The [steps] table of [process_partial_pipeline]. *)
Definition steps (i : Z) : option task :=
  if i =? 1 then Some step1_merge
  else if i =? 2 then Some step2_silence
  else if i =? 3 then Some step3_cut_sources
  else if i =? 4 then Some step4_transcribe
  else if i =? 5 then Some step5_shorts
  else if i =? 6 then Some step6_broll
  else if i =? 7 then Some step7_integrate_broll
  else if i =? 8 then Some step8_seo
  else if i =? 9 then Some step9_thumbnail
  else if i =? 10 then Some step10_schedule
  else if i =? 11 then Some step11_upload
  else None.

(** Python's [range(a, b)]. *)
Definition range (a b : Z) : list Z :=
  map (fun n => a + Z.of_nat n) (seq 0 (Z.to_nat (b - a))).

Inductive partial_outcome :=
| none_selected
| key_error
| started (pipeline : list signature).

Definition process_partial_pipeline (video_folder : string)
    (start_step end_step : Z) : partial_outcome :=
  let selected_steps := omap (fun i => s <$> steps i) (range start_step (end_step + 1)) in
  match selected_steps with
  | [] => none_selected
  | _ :: others =>
      let first_task :=
        if start_step =? 1 then Some (s_of step1_merge (folder video_folder))
        else (fun t => s_of t (previous (mkContinuation true None video_folder)))
               <$> steps start_step in
      match first_task with
      | None => key_error
      | Some first_task => started (first_task :: others)
      end
  end.

(** What is put on the queue. *)
Inductive message :=
| apply_chain (pipeline : list signature)
| call_task (sg : signature)
| call_full_pipeline (video_folder : string)
| call_partial_pipeline (video_folder : string) (start_step end_step : Z).

(** The stage invocations a queued message leads the workers to run. *)
Definition chain_of (m : message) : option (list signature) :=
  match m with
  | apply_chain pipeline => Some pipeline
  | call_task sg => Some [sg]
  | call_full_pipeline video_folder => Some (process_full_pipeline video_folder)
  | call_partial_pipeline video_folder a b =>
      match process_partial_pipeline video_folder a b with
      | started pipeline => Some pipeline
      | _ => None
      end
  end.

(** The broker: an identifier supply, the queue of submissions with their
    handles, the revoked handles; a broker that is down refuses calls. *)
Record broker := mkBroker {
  uuid4 : nat -> string;
  issued : nat;
  accepting : bool;
  queue : list (string * message);
  revoked : list string
}.

(** [.delay(..)] / [.apply_async()]: [None] when the call raises. *)
Definition delay (m : message) (b : broker) : option (string * broker) :=
  if accepting b
  then let id := uuid4 b (issued b) in
       Some (id, mkBroker (uuid4 b) (S (issued b)) (accepting b)
                          (queue b ++ [(id, m)]) (revoked b))
  else None.

(** [celery_app.control.revoke(id, terminate=True)]. *)
Definition revoke (id : string) (b : broker) : option broker :=
  if accepting b
  then Some (mkBroker (uuid4 b) (issued b) (accepting b) (queue b) (revoked b ++ [id]))
  else None.

(** *** Stage bodies *)

Record world := mkWorld {
  db : database;
  fs : filesystem;
  mq : broker;
  task_states : list (string * string)
}.

(** [self]: the running task instance, with the handle it runs under. *)
Record request := mkRequest { request_id : string }.

(** [self.update_state(state=..)] in the result backend. *)
Definition update_state (self : request) (state : string) (w : world) : world :=
  mkWorld (db w) (fs w) (mq w) (task_states w ++ [(request_id self, state)]).

Definition set_db (w : world) (d : database) : world :=
  mkWorld d (fs w) (mq w) (task_states w).

Definition set_fs (w : world) (f : filesystem) : world :=
  mkWorld (db w) f (mq w) (task_states w).

(** A service run on the project directory at [video_folder]; a missing
    directory has no entry to offer and is not created. *)
Definition on_folder {A} (service : directory -> directory * attempt A)
    (f : filesystem) (video_folder : string) : filesystem * attempt A :=
  match f !! video_folder with
  | Some dir => let '(dir', r) := service dir in (<[video_folder := dir']> f, r)
  | None => (f, snd (service ∅))
  end.

(** The [except] branch shared by the stage bodies 1 to 11. *)
Definition stage_failed {A} (step : Z) (self : request) (video_folder msg : string)
    (w : world) : world * attempt A :=
  let w := set_db w (update_project_status (db w) video_folder step "error" (Some msg)) in
  (update_state self "FAILURE" w, Raise msg).

(** The shape shared by [task_step1_merge] to [task_step9_thumbnail]:
    mark the project, call the service, return or raise. *)
Definition stage_body (step : Z)
    (service : directory -> directory * attempt result)
    (self : request) (previous_result : continuation) (w : world)
    : world * attempt continuation :=
  let video_folder := c_video_folder previous_result in
  let w := update_state self "PROGRESS" w in
  let w := set_db w (update_project_status (db w) video_folder step "processing" None) in
  let '(f, r) := on_folder service (fs w) video_folder in
  let w := set_fs w f in
  match r with
  | Done res =>
      if success res
      then (w, Done (mkContinuation true (Some step) video_folder))
      else stage_failed step self video_folder (default "None" (Artifacts.error res)) w
  | Raise msg => stage_failed step self video_folder msg w
  end.


Definition task_step7_integrate_broll
    (overlay : content -> list clip -> directory -> directory * attempt result) :=
  stage_body 7 (Step7IntegrateBroll.integrate_broll overlay).

(** [outputs[key] = value] on the manifest. *)
Fixpoint dict_set (key value : string) (d : list (string * string))
    : list (string * string) :=
  match d with
  | [] => [(key, value)]
  | (k, v) :: rest =>
      if bool_decide (k = key) then (k, value) :: rest
      else (k, v) :: dict_set key value rest
  end.

(** [task_step10_schedule].  [prepare_schedule] is the scheduling service
    (it returns the schedule document), [upload_project_folder] the mirror
    into the blob store, whose failure is only logged. *)
Definition task_step10_schedule
    (prepare_schedule : directory -> directory * attempt string)
    (upload_project_folder : directory -> attempt string)
    (self : request) (previous_result : continuation) (w : world)
    : world * attempt continuation :=
  let video_folder := c_video_folder previous_result in
  let w := update_state self "PROGRESS" w in
  let w := set_db w (update_project_status (db w) video_folder 10 "processing" None) in
  let '(f, r) := on_folder prepare_schedule (fs w) video_folder in
  let w := set_fs w f in
  match r with
  | Raise msg => stage_failed 10 self video_folder msg w
  | Done schedule =>
      let project := get_project_by_folder (db w) (path_name video_folder) in
      let minio_files :=
        match upload_project_folder (default ∅ (fs w !! video_folder)) with
        | Done files => files
        | Raise _ => "{}"%string
        end in
      let w :=
        match project with
        | Some (project_id, p) =>
            set_db w (update_project (db w) project_id
              [ set_outputs (dict_set "minio" minio_files
                               (dict_set "schedule" schedule (outputs p)));
                set_status "ready_to_upload";
                set_progress 90;
                set_current_step (Some 10);
                set_step_name (Some "Prêt pour upload YouTube") ])
        | None => w
        end in
      (w, Done (mkContinuation true (Some 10) video_folder))
  end.

End Tasks.

(** ** main.py: the chains submitted when a project is created *)

Module Main.
Import Tasks.

(** The chain of the upload endpoint (raw recordings, stage 0 first). *)
Definition create_project_pipeline (video_folder : string) : list signature :=
  [ s_of step0_convert (folder video_folder);
    s step1_merge; s step2_silence; s step3_cut_sources; s step4_transcribe;
    s step5_shorts; s step6_broll; s step7_integrate_broll; s step8_seo;
    s step9_thumbnail; s step10_schedule ].

(** The chain of the composite endpoint (stage 0 skipped). *)
Definition create_composite_pipeline (video_folder : string) : list signature :=
  [ s_of step1_merge (folder video_folder);
    s step2_silence; s step3_cut_sources; s step4_transcribe; s step5_shorts;
    s step6_broll; s step7_integrate_broll; s step8_seo; s step9_thumbnail;
    s step10_schedule ].

End Main.

(** ** routers/projects.py *)

Module Projects.
Import Artifacts Database Tasks.
Local Open Scope Z_scope.

(** What an endpoint answers: a body, or [HTTPException]. *)
Inductive response (A : Type) :=
| OK (body : A)
| HTTPException (status_code : Z) (detail : string).
Arguments OK {A} body.
Arguments HTTPException {A} status_code detail.

(** *** [reboot_project] *)

Definition files_to_keep : list string := ["config.json"; "screen.mp4"; "webcam.mp4"].

(** An entry the reboot removes: not one to keep, and its removal does not
    raise ([removable] tells whether [rmtree] / [unlink] succeeds on it). *)
Definition doomed (removable : string -> bool) (name : string) : bool :=
  negb (bool_decide (name ∈ files_to_keep)) && removable name.

(** Step 2 of the reboot, on the project directory: what is left and the
    names deleted. *)
Definition reboot_clean (removable : string -> bool) (dir : directory)
    : directory * list string :=
  (filter (fun kv => doomed removable kv.1 = false) dir,
   filter (fun name => doomed removable name = true) (map fst (map_to_list dir))).

Record reboot_body := mkRebootBody {
  task_revoked : bool;
  files_deleted : list string;
  files_kept : list string;
  new_task_id : string
}.

(** The dictionary of the reset in step 3. *)
Definition reset_updates : list assignment :=
  [ set_status "created"; set_current_step None; set_step_name None;
    set_progress 0; set_celery_task_id None; set_steps [] ].

(** Steps 1 to 3: revoke the recorded task, clean the directory, reset the
    project document. *)
Definition reboot_reset (removable : string -> bool) (project_id : string)
    (project : project) (w : world) : world * (bool * list string) :=
  let output_dir := "output/" +:+ folder_name project in
  let '(mq1, revoked) :=
    if truthy (celery_task_id project)
    then match revoke (default EmptyString (celery_task_id project)) (mq w) with
         | Some b => (b, true)
         | None => (mq w, false)
         end
    else (mq w, false) in
  let '(fs1, deleted) :=
    match fs w !! output_dir with
    | Some dir =>
        let '(dir', names) := reboot_clean removable dir in
        (<[output_dir := dir']> (fs w), names)
    | None => (fs w, [])
    end in
  let db1 := update_project (db w) project_id reset_updates in
  (mkWorld db1 fs1 mq1 (task_states w), (revoked, deleted)).

(** Step 4: submit the pipeline again and record its handle. *)
Definition reboot_relaunch (project_id : string) (project : project)
    (revoked : bool) (deleted : list string) (w : world)
    : world * response reboot_body :=
  let video_folder_path := "output/" +:+ folder_name project in
  match delay (call_partial_pipeline video_folder_path 1 12) (mq w) with
  | Some (task_id, mq') =>
      let db' := update_project (db w) project_id
        [ set_celery_task_id (Some task_id); set_status "processing" ] in
      (mkWorld db' (fs w) mq' (task_states w),
       OK (mkRebootBody revoked deleted files_to_keep task_id))
  | None => (w, HTTPException 500 "Erreur relance pipeline")
  end.

Definition reboot_project (removable : string -> bool) (project_id : string)
    (w : world) : world * response reboot_body :=
  if negb (is_connected (db w))
  then (w, HTTPException 503 "Base de données non disponible")
  else match get_project (db w) project_id with
       | None => (w, HTTPException 404 "Projet non trouvé")
       | Some project =>
           let '(w1, (revoked, deleted)) := reboot_reset removable project_id project w in
           reboot_relaunch project_id project revoked deleted w1
       end.

(** *** [start_youtube_upload] *)

Record upload_body := mkUploadBody { upload_task_id : string; upload_project_id : string }.

Definition upload_statuses : list string := ["ready_to_upload"; "completed"; "failed"].

Definition start_youtube_upload (project_id : string) (w : world)
    : world * response upload_body :=
  if negb (is_connected (db w))
  then (w, HTTPException 503 "Base de données non disponible")
  else match get_project (db w) project_id with
       | None => (w, HTTPException 404 "Projet non trouvé")
       | Some project =>
           if negb (bool_decide (status project ∈ upload_statuses))
           then (w, HTTPException 400 "Le projet doit être en statut 'ready_to_upload'")
           else
             let video_folder_path := "output/" +:+ folder_name project in
             match delay (call_task (s_of step11_upload
                            (previous (mkContinuation true None video_folder_path))))
                         (mq w) with
             | Some (task_id, mq') =>
                 let db' := update_project (db w) project_id
                   [ set_celery_task_id (Some task_id); set_status "processing";
                     set_current_step (Some 11);
                     set_step_name (Some "Upload YouTube en cours...") ] in
                 (mkWorld db' (fs w) mq' (task_states w),
                  OK (mkUploadBody task_id project_id))
             | None => (w, HTTPException 500 "Erreur lancement upload")
             end
       end.

(** *** [cut_video]: the chain it submits after cutting the sources *)

Definition cut_video_pipeline (video_folder_path : string) : list signature :=
  [ s_of step1_merge (folder video_folder_path);
    s step2_silence; s step3_cut_sources; s step4_transcribe; s step5_shorts;
    s step6_broll; s step7_integrate_broll; s step8_seo; s step9_thumbnail;
    s step10_schedule ].

End Projects.

(** ** Sample inputs *)

Module Examples.
Import Step2Silence Step5Shorts Artifacts Database Tasks.
Local Open Scope Q_scope.

(** A recording whose last silence is still running when the input ends:
    [silencedetect] printed [silence_start: 2] and no [silence_end]. *)
Definition open_ended : list silence := [mkSilence 2 None].


Definition seg_of (a b : Q) : transcript_segment :=
  mkTranscriptSegment (Some a) (Some b) "".

Definition three_phrases : list transcript_segment :=
  [seg_of 0 5; seg_of 5 10; seg_of 10 20].


Definition long_phrase : list transcript_segment :=
  [seg_of (712 # 100) (3105 # 100)].

Definition ready_studio : studio :=
  mkStudio true true (fun title _ _ => Some ("shorts/" +:+ title)).


Definition wide_window : suggestion :=
  mkSuggestion (Some "b") (Some (73 # 10)) (Some (458 # 10)) "".

Definition fair_window : suggestion :=
  mkSuggestion (Some "c") (Some (73 # 10)) (Some 30) "".

(** A project stopped during stage 2 and resubmitted since: the registry
    holds the handle of the new chain. *)
Definition sample_codec : codec :=
  mkCodec (fun _ => 10) (fun _ _ _ => []) (fun _ _ => Some (Media 2)).

Definition sample_project : project :=
  mkProject "video_1" "stopped" (Some 2%Z) (Some "Suppression silences") 16
            [("merge", "completed")] [] (Some "new-handle") None.

Definition sample_dir : gmap string entry :=
  {[ "config.json" := File (Text "{}"); "screen.mp4" := File (Media 7);
     "webcam.mp4" := File (Media 8); "original.mp4" := File (Media 1);
     "shorts" := Folder ]}.

Definition sample_broker : broker :=
  mkBroker (fun n => "task-" +:+ pretty n) 1 true [] [].

Definition sample_world : world :=
  mkWorld (mkDatabase true [("p1", sample_project)])
          {[ "output/video_1" := sample_dir ]} sample_broker [].

(** The same project once stage 10 has returned. *)
Definition ready_world : world :=
  mkWorld (mkDatabase true
             [("p1", mkProject "video_1" "ready_to_upload" (Some 10%Z)
                       (Some "Prêt pour upload YouTube") 90 [] [] (Some "task-0") None)])
          {[ "output/video_1" := sample_dir ]} sample_broker [].

(** The continuation stage 1 hands to stage 2. *)
Definition after_merge : continuation :=
  mkContinuation true (Some 1%Z) "output/video_1".

(** A directory after stage 6 found no clip. *)
Definition no_clip_dir : gmap string entry :=
  {[ "nosilence.mp4" := File (Media 3); "broll_clips.json" := File (ClipsDoc []) ]}.

End Examples.

(** ** tasks.py: the publication stage *)

Module Publication.
Import Artifacts Database Tasks.
Local Open Scope Z_scope.

(** [task_step11_upload].  [upload_to_youtube] is the upload service: it
    returns its result dictionary, of which the [success] flag and the
    document are kept, or raises. *)
Definition task_step11_upload
    (upload_to_youtube : directory -> directory * attempt (bool * string))
    (self : request) (previous_result : continuation) (w : world)
    : world * attempt continuation :=
  let video_folder := c_video_folder previous_result in
  let w := update_state self "PROGRESS" w in
  let w := set_db w (update_project_status (db w) video_folder 11 "processing" None) in
  let '(f, r) := on_folder upload_to_youtube (fs w) video_folder in
  let w := set_fs w f in
  match r with
  | Raise msg => stage_failed 11 self video_folder msg w
  | Done (ok, uploads) =>
      let w :=
        match get_project_by_folder (db w) (path_name video_folder) with
        | Some (project_id, p) =>
            set_db w (update_project (db w) project_id
              [ set_outputs (dict_set "youtube_uploads" uploads (outputs p));
                set_status "completed";
                set_progress 100;
                set_current_step (Some 11);
                set_step_name (Some "Terminé - Uploadé sur YouTube") ])
        | None => w
        end in
      let w := set_db w (update_project_status (db w) video_folder 11 "completed" None) in
      (w, Done (mkContinuation ok (Some 11) video_folder))
  end.

End Publication.

(** ** routers/projects.py: start and stop *)

Module Control.
Import Artifacts Database Tasks Projects.
Local Open Scope Z_scope.

Record start_body := mkStartBody { start_task_id : string; start_project_id : string }.

(** [start_project_pipeline(project_id, start_step, end_step)]. *)
Definition start_project_pipeline (project_id : string) (start_step end_step : Z)
    (w : world) : world * response start_body :=
  if negb (is_connected (db w))
  then (w, HTTPException 503 "Base de données non disponible")
  else match get_project (db w) project_id with
       | None => (w, HTTPException 404 "Projet non trouvé")
       | Some project =>
           let video_folder_path := "output/" +:+ folder_name project in
           match delay (call_partial_pipeline video_folder_path start_step end_step)
                       (mq w) with
           | Some (task_id, mq') =>
               let db' := update_project (db w) project_id
                 [ set_celery_task_id (Some task_id); set_status "processing" ] in
               (mkWorld db' (fs w) mq' (task_states w),
                OK (mkStartBody task_id project_id))
           | None => (w, HTTPException 500 "Erreur démarrage pipeline")
           end
       end.

Record stop_body := mkStopBody {
  stop_task_revoked : bool;
  stopped_at_step : option Z;
  stop_step_name : option string
}.

(** [stop_pipeline(project_id)]: the endpoint does not test the
    connection; a project that is not found answers 404. *)
Definition stop_pipeline (project_id : string) (w : world)
    : world * response stop_body :=
  match get_project (db w) project_id with
  | None => (w, HTTPException 404 "Projet non trouvé")
  | Some project =>
      let '(mq1, was_revoked) :=
        if truthy (celery_task_id project)
        then match revoke (default EmptyString (celery_task_id project)) (mq w) with
             | Some b => (b, true)
             | None => (mq w, false)
             end
        else (mq w, false) in
      let label :=
        if truthy (step_name project)
        then "Arrêté à l'étape "
             +:+ match current_step project with
                 | Some k => pretty k
                 | None => "None"
                 end
             +:+ ": " +:+ default EmptyString (step_name project)
        else "Arrêté" in
      let db1 := update_project (db w) project_id
        [ set_status "stopped"; set_celery_task_id None; set_step_name (Some label) ] in
      (mkWorld db1 (fs w) mq1 (task_states w),
       OK (mkStopBody was_revoked (current_step project) (step_name project)))
  end.

End Control.

(** ** Predicates on silence and segment lists *)

Module Bounds.
Import Step2Silence.
Local Open Scope Q_scope.

(** No silence of the list lies before the origin of the time line. *)
Definition from_origin (silences : list silence) : Prop :=
  Forall (fun s => 0 <= sil_start s /\ forall e, sil_end s = Some e -> 0 <= e) silences.

(** A segment inside the input. *)
Definition inside (total_duration : Q) (g : segment) : Prop :=
  0 <= seg_start g /\ seg_end g <= total_duration.

End Bounds.

(** ** routers/projects.py, [cut_video]: the segments to keep *)

Module CutPlan.
Import QAux Step2Silence Projects.
Local Open Scope Q_scope.

(** [CutSegment]: a stretch of the recording the user wants removed. *)
Record cut_segment := mkCutSegment { cut_start : Q; cut_end : Q }.

(** [sorted(request.cuts, key=lambda x: x.start)]: the sort is stable, a
    cut goes before the cuts of the sorted rest that start no earlier. *)
Fixpoint insert_cut (c : cut_segment) (l : list cut_segment) : list cut_segment :=
  match l with
  | [] => [c]
  | d :: r => if Qleb (cut_start c) (cut_start d) then c :: d :: r else d :: insert_cut c r
  end.

Definition sorted (cuts : list cut_segment) : list cut_segment :=
  foldr insert_cut [] cuts.

(** One iteration of the loop over the cuts; the state is
    [(keep_segments, current_start)]. *)
Definition keep_step (st : list segment * Q) (cut : cut_segment) : list segment * Q :=
  let '(keep_segments, current_start) := st in
  ((if Qltb current_start (cut_start cut)
    then keep_segments ++ [mkSegment current_start (cut_start cut)]
    else keep_segments),
   cut_end cut).

Definition keep_segments (cuts : list cut_segment) (duration : Q) : list segment :=
  let '(keep_segments, current_start) := fold_left keep_step cuts ([], 0) in
  if Qltb current_start duration
  then keep_segments ++ [mkSegment current_start duration]
  else keep_segments.

(** The part of [cut_video] from the sort of the cuts to the test of the
    segments to keep; [duration] is the probed duration of [screen.mp4]. *)
Definition cut_plan (cuts : list cut_segment) (duration : Q) : response (list segment) :=
  match sorted cuts with
  | [] => HTTPException 400 "Aucun segment à couper"
  | cuts =>
      match keep_segments cuts duration with
      | [] => HTTPException 400 "Impossible de couper toute la vidéo"
      | keep => OK keep
      end
  end.

(** The segments the loop yields from [current_start] on, by recursion on
    the cuts. *)
Fixpoint keep_from (current_start : Q) (cuts : list cut_segment) (duration : Q)
    : list segment :=
  match cuts with
  | [] => if Qltb current_start duration then [mkSegment current_start duration] else []
  | c :: r =>
      (if Qltb current_start (cut_start c) then [mkSegment current_start (cut_start c)]
       else [])
      ++ keep_from (cut_end c) r duration
  end.

(** A cut inside the recording. *)
Definition proper (duration : Q) (c : cut_segment) : Prop :=
  0 <= cut_start c /\ cut_start c < cut_end c /\ cut_end c <= duration.

Definition apart (c d : cut_segment) : Prop :=
  cut_end c <= cut_start d \/ cut_end d <= cut_start c.

(** No two cuts of the list overlap. *)
Fixpoint disjoint (cuts : list cut_segment) : Prop :=
  match cuts with
  | [] => True
  | c :: r => Forall (apart c) r /\ disjoint r
  end.

(** Cuts in time order from [lo] on, each starting after the one before
    has ended. *)
Fixpoint in_order (lo : Q) (cuts : list cut_segment) : Prop :=
  match cuts with
  | [] => True
  | c :: r => lo <= cut_start c /\ cut_start c < cut_end c /\ in_order (cut_end c) r
  end.

Definition cut_length (cuts : list cut_segment) : Q :=
  foldr (fun c acc => (cut_end c - cut_start c) + acc) 0 cuts.

Definition kept_length (keep : list segment) : Q :=
  foldr (fun g acc => (seg_end g - seg_start g) + acc) 0 keep.

(** A kept segment that has a length and avoids every cut. *)
Definition clear_of (cuts : list cut_segment) (g : segment) : Prop :=
  seg_start g < seg_end g
  /\ Forall (fun c => seg_end g <= cut_start c \/ cut_end c <= seg_start g) cuts.

End CutPlan.

(** ** services/step10_schedule.py *)

Module Step10Schedule.
Local Open Scope Z_scope.

Definition OPTIMAL_HOURS : list string :=
  ["18:00"; "19:00"; "20:00"; "17:00"; "12:00"; "13:00"].

(** 0 is Monday, 6 is Sunday. *)
Definition BEST_DAYS : list Z := [1; 2; 3; 5; 0; 4; 6].

(** A [datetime] is represented by the proleptic ordinal of its day, which
    is all the function reads of it; [weekday()] of the day with ordinal
    [d] is [(d + 6) % 7], and [timedelta(days=n)] adds [n]. *)
Definition weekday (day : Z) : Z := (day + 6) mod 7.

(** The loop [for _ in range(14)], by the iterations left. *)
Fixpoint next_best_day (iterations : nat) (target : Z) : Z :=
  match iterations with
  | O => target
  | S n =>
      if bool_decide (weekday target ∈ take 4 BEST_DAYS) then target
      else next_best_day n (target + 1)
  end.

(** [get_next_optimal_date(start_from, offset_days)]: the day returned
    stands for its [strftime('%Y-%m-%d')]. *)
Definition get_next_optimal_date (start_from offset_days : Z) : Z * string :=
  let target := start_from + (1 + offset_days) in
  let target := next_best_day 14 target in
  let hour := nth (Z.to_nat (offset_days mod Z.of_nat (length OPTIMAL_HOURS)))
                  OPTIMAL_HOURS EmptyString in
  (target, hour).

(** The scheduling fields of an entry of [schedule['uploads']]. *)
Record upload := mkUpload {
  up_type : string;
  up_file : string;
  scheduled_date : Z;
  scheduled_time : string
}.

(** The uploads [prepare_schedule] plans: [now] is the day of the call,
    [shorts_files] the sorted [.mp4] files of the [shorts] directory
    ([None] when there is no such directory). *)
Definition planned_uploads (now : Z) (has_illustrated has_nosilence : bool)
    (shorts_files : option (list string)) : list upload :=
  (if has_illustrated
   then let '(date, time) := get_next_optimal_date now 0 in
        [mkUpload "illustrated" "illustrated.mp4" date time]
   else [])
  ++ (if has_nosilence
      then let '(date, _) := get_next_optimal_date now 0 in
           [mkUpload "classroom" "nosilence.mp4" date "10:00"]
      else [])
  ++ match shorts_files with
     | Some files =>
         imap (fun i short_file =>
                 let '(date, time) := get_next_optimal_date now (1 + Z.of_nat i) in
                 mkUpload "short" ("shorts/" +:+ short_file) date time)
              files
     | None => []
     end.

(** The publication slot of an upload. *)
Definition slot (u : upload) : Z * string := (scheduled_date u, scheduled_time u).

End Step10Schedule.

(** ** services/step7_integrate_broll.py: the window of a clip *)

Module Step7Clips.
Import QAux Artifacts.
Local Open Scope Q_scope.

(** The body of the preparation loop for a clip whose file exists, up to
    the encoder call: [None] when the clip is skipped, otherwise the
    timestamp and the duration handed to the encoder.  The clip dictionary
    carries its [timestamp] and [duration] keys. *)
Definition plan_clip (broll_duration video_duration : Q) (c : clip) : option (Q * Q) :=
  let timestamp := clip_timestamp c in
  let duration := Qmin broll_duration (clip_duration c) in
  if Qltb timestamp 0 || Qleb video_duration timestamp then None
  else
    let duration :=
      if Qltb video_duration (timestamp + duration)
      then video_duration - timestamp
      else duration in
    Some (timestamp, duration).

End Step7Clips.

(** ** Creating and deleting projects: services/database.py and
    routers/projects.py *)

Module Lifecycle.
Import Artifacts Database Tasks Projects.
Local Open Scope Z_scope.

(** The [steps] and [outputs] of a new project document; [None] and the
    empty list are shown as they are dumped. *)
Definition pending_steps : list (string * string) :=
  map (fun step => (step, "pending"%string))
      [ "convert"; "merge"; "silence"; "cut_sources"; "transcribe"; "shorts";
        "broll"; "integrate_broll"; "seo"; "thumbnail" ]%string.

Definition empty_outputs : list (string * string) :=
  [ ("original", "null"); ("nosilence", "null"); ("illustrated", "null");
    ("thumbnail", "null"); ("shorts", "[]"); ("seo", "null") ]%string.

(** The document [create_project] inserts (without [name], [config] and
    the time stamps, which the pipeline does not read). *)
Definition new_project (folder_name : string) (status : option string) : project :=
  mkProject folder_name
            (if truthy status then default EmptyString status else "created"%string)
            None None 0 pending_steps empty_outputs None None.

(** [db.create_project(name, folder_name, config, status)];
    [inserted_id] is the [_id] the collection gives the document. *)
Definition create_project (inserted_id : string) (folder_name : string)
    (status : option string) (d : database) : database * option string :=
  if is_connected d
  then (mkDatabase (connected d)
                   (projects d ++ [(inserted_id, new_project folder_name status)]),
        Some inserted_id)
  else (d, None).



(** The endpoint [POST /projects]. *)
Definition create_project_endpoint (inserted_id folder_name : string) (d : database)
    : database * response string :=
  if negb (is_connected d)
  then (d, HTTPException 503 "Base de données non disponible")
  else match get_project_by_folder d folder_name with
       | Some _ => (d, HTTPException 400 "Un projet avec ce dossier existe déjà")
       | None =>
           let '(d', project_id) := create_project inserted_id folder_name None d in
           if truthy project_id
           then (d', OK (default EmptyString project_id))
           else (d', HTTPException 500 "Erreur lors de la création du projet")
       end.



(** No two projects of the registry share a folder. *)
Definition unique_folders (d : database) : Prop :=
  NoDup (map (fun doc => folder_name doc.2) (projects d)).

End Lifecycle.

(** ** services/step3_cut_sources.py *)

Module Step3CutSources.
Import Artifacts Step2Silence.

(** A run of [cut_video_with_segments]: the encoder exits with 0 and the
    output is there, or the run fails and leaves at the output path what
    it leaves ([None]: nothing). *)
Inductive encoder_run :=
| Encoded (output : content)
| Failed (left : option entry).

(** The output path after a run; a directory at the output path makes
    the run fail and stays. *)
Definition run_cut (cut : content -> list segment -> bool -> encoder_run)
    (source : entry) (segments : list segment) (include_audio : bool)
    (output : string) (dir : directory) : directory * bool :=
  match source, dir !! output with
  | File _, Some Folder => (dir, false)
  | File c, _ =>
      match cut c segments include_audio with
      | Encoded out => (<[output := File out]> dir, true)
      | Failed (Some e) => (<[output := e]> dir, false)
      | Failed None => (delete output dir, false)
      end
  | Folder, _ => (dir, false)
  end.

(** [cut_sources(video_folder, threshold_db, min_silence, padding)] on
    the project directory. *)
Definition cut_sources (ff : codec)
    (cut : content -> list segment -> bool -> encoder_run)
    (threshold_db : Z) (min_silence padding : Q)
    (dir : directory) : directory * attempt result :=
  match dir !! "screen.mp4" with
  | None =>
      if bool_decide (is_Some (dir !! "combined.webm"))
      then (dir, Done (mkResult true None))
      else (dir, Done (mkResult false (Some "screen.mp4 manquant")))
  | Some screen =>
      let loaded : attempt (option (list segment)) :=
        match dir !! "segments.json" with
        | Some (File (SegmentsDoc doc)) => Done (Some (sj_segments doc))
        | Some _ => Raise "segments.json: cannot load"
        | None =>
            match dir !! "original.mp4" with
            | None => Done None
            | Some (File input) =>
                Done (Some (get_speech_segments
                              (silencedetect ff input threshold_db min_silence)
                              (probe_duration ff input) padding))
            | Some Folder => Raise "ffprobe: no duration"
            end
        end in
      match loaded with
      | Raise msg => (dir, Raise msg)
      | Done None =>
          (dir, Done (mkResult false (Some "original.mp4 et segments.json manquants")))
      | Done (Some segments) =>
          match dir !! "temp_cut" with
          | Some (File _) => (dir, Raise "temp_cut is a file")
          | _ =>
              let dir := delete "temp_cut" dir in
              let '(dir, ok) := run_cut cut screen segments true "screennosilence.mp4" dir in
              if negb ok then (dir, Done (mkResult false (Some "Erreur coupe screen")))
              else
                match dir !! "webcam.mp4" with
                | Some webcam =>
                    let '(dir, ok) :=
                      run_cut cut webcam segments false "webcamnosilence.mp4" dir in
                    if negb ok then (dir, Done (mkResult false (Some "Erreur coupe webcam")))
                    else (dir, Done (mkResult true None))
                | None => (dir, Done (mkResult true None))
                end
          end
      end
  end.

End Step3CutSources.

(** * Properties *)

(** ** Comparisons on rationals *)

Section Rationals.
Import QAux.
Local Open Scope Q_scope.

Lemma Qltb_true a b : Qltb a b = true <-> a < b.
Proof. unfold Qltb. rewrite Qlt_alt. destruct (a ?= b); split; congruence. Qed.

Lemma Qltb_false a b : Qltb a b = false <-> b <= a.
Proof.
  split; intros H.
  - apply Qnot_lt_le. intros Hlt. apply Qltb_true in Hlt. congruence.
  - destruct (Qltb a b) eqn:E; [|reflexivity].
    apply Qltb_true in E. lra.
Qed.

Lemma Qleb_true a b : Qleb a b = true <-> a <= b.
Proof. unfold Qleb. rewrite Qle_alt. destruct (a ?= b); split; congruence. Qed.

Lemma Qleb_false a b : Qleb a b = false <-> b < a.
Proof.
  split; intros H.
  - apply Qnot_le_lt. intros Hle. apply Qleb_true in Hle. congruence.
  - destruct (Qleb a b) eqn:E; [|reflexivity].
    apply Qleb_true in E. lra.
Qed.



End Rationals.

(** Case analysis on every [Qmax] and [Qmin] of the goal. *)
Ltac qcases :=
  repeat match goal with
  | |- context [Qmax ?a ?b] =>
      let H := fresh in
      destruct (Q.max_spec a b) as [[? H]|[? H]]; rewrite H in *; clear H
  | |- context [Qmin ?a ?b] =>
      let H := fresh in
      destruct (Q.min_spec a b) as [[? H]|[? H]]; rewrite H in *; clear H
  end.

(** ** Stage 2: kept segments and silences *)

Section SilenceTrim.
Import QAux Step2Silence Examples.
Local Open Scope Q_scope.





















End SilenceTrim.

(** ** Stage 5: window snapping and short creation *)

Section Shorts.
Import QAux Step5Shorts Examples.
Local Open Scope Q_scope.

Lemma nearest_step_first target v :
  tracks target [v] (nearest_step target (target, None) v).
Proof.
  unfold nearest_step, tracks; simpl. repeat split; auto.
  intros u [->|[]]. lra.
Qed.

Lemma nearest_step_tracks target seen st v :
  tracks target seen st -> tracks target (seen ++ [v]) (nearest_step target st v).
Proof.
  intros (Hd & Hin & Hmin). unfold nearest_step. rewrite Hd.
  destruct (Qltb (Qabsv (v - target)) (Qabsv (fst st - target))) eqn:E.
  - apply Qltb_true in E. unfold tracks; simpl. repeat split.
    + apply in_or_app. right. now left.
    + intros u Hu. apply in_app_or in Hu as [Hu|[->|[]]]; [|lra].
      specialize (Hmin u Hu). lra.
  - apply Qltb_false in E. unfold tracks. repeat split; auto.
    + apply in_or_app. now left.
    + intros u Hu. apply in_app_or in Hu as [Hu|[->|[]]]; auto.
Qed.

Lemma nearest_fold_tracks target values : forall seen st,
  tracks target seen st ->
  tracks target (seen ++ values) (fold_left (nearest_step target) values st).
Proof.
  induction values as [|v r IH]; intros seen st H; simpl.
  - now rewrite app_nil_r.
  - change (seen ++ v :: r) with (seen ++ [v] ++ r). rewrite app_assoc.
    apply IH, nearest_step_tracks, H.
Qed.

(** The loop returns a value of the list at minimal distance. *)
Lemma nearest_closest target values :
  values <> [] -> closest target values (nearest target values).
Proof.
  destruct values as [|v r]; [congruence|]. intros _.
  unfold nearest; simpl.
  pose proof (nearest_fold_tracks target r [v] _ (nearest_step_first target v))
    as (_ & Hin & Hmin).
  split; assumption.
Qed.

Lemma snap_nonempty start stop seg segs :
  snap_to_segment_boundaries start stop (seg :: segs)
  = let best_start := nearest start (map get_start (seg :: segs)) in
    let best_end := nearest stop (map get_end (seg :: segs)) in
    (best_start, if Qleb best_end best_start then best_start + 15 else best_end).
Proof. reflexivity. Qed.

(** The shape of the snapped window on a non-empty segment list. *)
Lemma snap_shape start stop segments :
  segments <> [] ->
  let best_start := nearest start (map get_start segments) in
  let best_end := nearest stop (map get_end segments) in
  let w := snap_to_segment_boundaries start stop segments in
  fst w < snd w
  /\ fst w = best_start
  /\ (best_end <= best_start -> snd w = best_start + 15)
  /\ (best_start < best_end -> snd w = best_end).
Proof.
  destruct segments as [|seg segs]; [congruence|]. intros _.
  rewrite snap_nonempty. cbv zeta.
  set (a := nearest start _). set (b := nearest stop _).
  destruct (Qleb b a) eqn:E; simpl.
  - apply Qleb_true in E. repeat split; auto; try lra.
  - apply Qleb_false in E. repeat split; auto; try lra.
Qed.




Lemma adjusted_window_nonempty segments sug :
  segments <> [] ->
  adjusted_window segments sug
  = snap_to_segment_boundaries (default 0 (sug_start sug))
                               (default 30 (sug_end sug)) segments.
Proof. destruct segments; [congruence|reflexivity]. Qed.

Lemma create_short_success env title start stop :
  sr_success (create_short env title start stop) = true ->
  3 <= stop - start /\ stop - start <= 26.
Proof.
  unfold create_short.
  destruct (has_screen env); simpl; [|discriminate].
  destruct (has_webcam env); simpl; [|discriminate].
  destruct (Qltb (stop - start) 3) eqn:E1; simpl; [discriminate|].
  destruct (Qltb MAX_SHORT_CONTENT (stop - start)) eqn:E2; simpl; [discriminate|].
  intros _. apply Qltb_false in E1, E2.
  unfold MAX_SHORT_CONTENT, MAX_SHORT_TOTAL, OUTRO_DURATION in E2. split; lra.
Qed.


Lemma snapped_on_boundaries start stop segments :
  segments <> [] ->
  let w := snap_to_segment_boundaries start stop segments in
  (exists seg, In seg segments /\ get_start seg = fst w)
  /\ ((exists seg, In seg segments /\ get_end seg = snd w) \/ snd w = fst w + 15).
Proof.
  intros Hne. cbv zeta.
  destruct (snap_shape start stop segments Hne) as (_ & Hs & Hforced & Hkept).
  assert (Hs' : map get_start segments <> [])
    by (destruct segments; [congruence|discriminate]).
  assert (He' : map get_end segments <> [])
    by (destruct segments; [congruence|discriminate]).
  destruct (nearest_closest start _ Hs') as [Hin1 _].
  destruct (nearest_closest stop _ He') as [Hin2 _].
  apply in_map_iff in Hin1 as (s1 & Hs1 & Hi1).
  apply in_map_iff in Hin2 as (s2 & Hs2 & Hi2).
  split.
  - exists s1. split; [exact Hi1|]. rewrite Hs. exact Hs1.
  - destruct (Qlt_le_dec (nearest start (map get_start segments))
                         (nearest stop (map get_end segments))) as [Hlt|Hle].
    + left. exists s2. split; [exact Hi2|]. rewrite (Hkept Hlt). exact Hs2.
    + right. rewrite (Hforced Hle), Hs. reflexivity.
Qed.

Lemma shorts_step_keeps env tagged segments acc i sug :
  Forall (fun sh => short_in_bounds sh
                    /\ (segments <> [] -> short_on_boundaries segments sh)) acc ->
  Forall (fun sh => short_in_bounds sh
                    /\ (segments <> [] -> short_on_boundaries segments sh))
         (shorts_step env tagged segments acc (i, sug)).
Proof.
  intros Hacc. unfold shorts_step.
  destruct (adjusted_window segments sug) as [start stop] eqn:Hw.
  destruct (sr_success (create_short env _ start stop)) eqn:Hok; [|exact Hacc].
  apply Forall_app. split; [exact Hacc|].
  constructor; [|constructor]. split.
  - apply create_short_success in Hok. exact Hok.
  - intros Hne. rewrite (adjusted_window_nonempty _ _ Hne) in Hw.
    pose proof (snapped_on_boundaries (default 0 (sug_start sug))
                  (default 30 (sug_end sug)) segments Hne) as H.
    cbv zeta in H. rewrite Hw in H. exact H.
Qed.

Lemma shorts_loop_keeps env tagged segments l : forall acc,
  Forall (fun sh => short_in_bounds sh
                    /\ (segments <> [] -> short_on_boundaries segments sh)) acc ->
  Forall (fun sh => short_in_bounds sh
                    /\ (segments <> [] -> short_on_boundaries segments sh))
         (fold_left (shorts_step env tagged segments) l acc).
Proof.
  induction l as [|[i sug] r IH]; intros acc H; simpl; [exact H|].
  apply IH, shorts_step_keeps, H.
Qed.

(** C5, as amended.  [shorts_suggestions.json] holds the suggestions of
    the language model as they were returned; it is every short the stage
    reports as created that lasts 3 to 26 seconds and, when the transcript
    has segments, starts on a segment start and ends on a segment end or
    15 seconds after its start. *)
Theorem stage5_shorts_windows env tagged suggestions segments :
  let out := generate_shorts env tagged suggestions segments in
  match suggestions with
  | [] => fst out = None
  | _ => fst out = Some suggestions
  end
  /\ Forall (fun sh => short_in_bounds sh
                       /\ (segments <> [] -> short_on_boundaries segments sh))
            (shorts (snd out)).
Proof.
  cbv zeta. unfold generate_shorts.
  destruct suggestions as [|sug r]; [split; [reflexivity|constructor]|].
  split; [reflexivity|]. cbn [snd shorts]. apply shorts_loop_keeps. constructor.
Qed.

(** The statement of C5 is not void: a fair suggestion yields a short. *)
Example stage5_makes_a_short :
  length (shorts (snd (generate_shorts ready_studio (fun _ => true)
                         [fair_window] three_phrases))) = 1%nat.
Proof. vm_compute. reflexivity. Qed.

(** C5, as stated, fails: the model suggests 7.3 s to 45.8 s, the file
    records that window, which lasts 38.5 s and whose ends are no segment
    boundaries. *)
Lemma stage5_suggestions_file_raw :
  let out := generate_shorts ready_studio (fun _ => true) [wide_window] long_phrase in
  fst out = Some [wide_window]
  /\ ~ Forall (window_on_boundaries long_phrase) (map suggestion_window [wide_window]).
Proof.
  cbv zeta. split; [reflexivity|].
  intros H. inversion H as [|w l [[_ Hd] _] _]; subst.
  revert Hd. apply Qlt_not_le. reflexivity.
Qed.




End Shorts.

(** ** The registry *)

Section Registry.
Import Database.

Lemma assign_folder_name p a : folder_name (assign p a) = folder_name p.
Proof. destruct a; reflexivity. Qed.

Lemma assigns_folder_name ups : forall p,
  folder_name (fold_left assign ups p) = folder_name p.
Proof.
  induction ups as [|a r IH]; intros p; simpl; [reflexivity|].
  rewrite IH. apply assign_folder_name.
Qed.

Lemma find_id_update_one i ups docs p :
  find_id i docs = Some p ->
  find_id i (update_one i ups docs) = Some (fold_left assign ups p).
Proof.
  induction docs as [|[j q] r IH]; simpl; [discriminate|].
  case_bool_decide as Hj; simpl.
  - intros [= ->]. rewrite bool_decide_eq_true_2 by assumption. reflexivity.
  - intros Hr. rewrite bool_decide_eq_false_2 by assumption. auto.
Qed.

Lemma find_folder_id name docs i p :
  find_folder name docs = Some (i, p) -> In i (map fst docs).
Proof.
  induction docs as [|[j q] r IH]; simpl; [discriminate|].
  case_bool_decide as Hc; [intros [= -> ->]; now left|]. intros Hr. right. auto.
Qed.

Lemma find_folder_find_id name docs i p :
  NoDup (map fst docs) ->
  find_folder name docs = Some (i, p) -> find_id i docs = Some p.
Proof.
  induction docs as [|[j q] r IH]; simpl; [discriminate|].
  intros Hnd. apply NoDup_cons in Hnd as [Hj Hr].
  case_bool_decide as Hf.
  - intros [= -> ->]. rewrite bool_decide_eq_true_2 by reflexivity. reflexivity.
  - intros H. case_bool_decide as Hji; [|auto].
    subst j. exfalso. apply Hj. apply list_elem_of_In. eapply find_folder_id, H.
Qed.

Lemma find_folder_update_one name docs i p ups :
  NoDup (map fst docs) ->
  find_folder name docs = Some (i, p) ->
  find_folder name (update_one i ups docs) = Some (i, fold_left assign ups p).
Proof.
  induction docs as [|[j q] r IH]; simpl; [discriminate|].
  intros Hnd. apply NoDup_cons in Hnd as [Hj Hr].
  case_bool_decide as Hf.
  - intros [= -> ->]. rewrite bool_decide_eq_true_2 by reflexivity. simpl.
    rewrite assigns_folder_name, bool_decide_eq_true_2 by assumption. reflexivity.
  - intros H. case_bool_decide as Hji.
    + subst j. exfalso. apply Hj. apply list_elem_of_In. eapply find_folder_id, H.
    + simpl. rewrite bool_decide_eq_false_2 by assumption. auto.
Qed.

Lemma update_one_ids i ups docs : map fst (update_one i ups docs) = map fst docs.
Proof.
  induction docs as [|[j q] r IH]; simpl; [reflexivity|].
  case_bool_decide; simpl; [reflexivity|]. now rewrite IH.
Qed.

Lemma update_project_connected d i ups :
  connected (update_project d i ups) = connected d.
Proof.
  unfold update_project, is_connected. destruct d as [c docs]; simpl.
  destruct c; reflexivity.
Qed.

Lemma update_project_unique d i ups :
  unique_ids d -> unique_ids (update_project d i ups).
Proof.
  unfold unique_ids, update_project. destruct (is_connected d); simpl; [|auto].
  now rewrite update_one_ids.
Qed.

Lemma get_project_connected d i p : get_project d i = Some p -> connected d = true.
Proof. unfold get_project, is_connected. destruct (connected d); [auto|discriminate]. Qed.

Lemma get_project_update d i ups p :
  get_project d i = Some p ->
  get_project (update_project d i ups) i = Some (fold_left assign ups p).
Proof.
  unfold get_project, update_project, is_connected.
  destruct d as [c docs]; simpl. destruct c; [|discriminate]. simpl.
  apply find_id_update_one.
Qed.

Lemma by_folder_get_project d name i p :
  unique_ids d -> get_project_by_folder d name = Some (i, p) -> get_project d i = Some p.
Proof.
  unfold get_project_by_folder, get_project. destruct (is_connected d); [|discriminate].
  apply find_folder_find_id.
Qed.

Lemma by_folder_update d name i p ups :
  unique_ids d -> get_project_by_folder d name = Some (i, p) ->
  get_project_by_folder (update_project d i ups) name
  = Some (i, fold_left assign ups p).
Proof.
  unfold unique_ids, get_project_by_folder, update_project, is_connected.
  destruct d as [c docs]; simpl. destruct c; [|discriminate]. simpl.
  apply find_folder_update_one.
Qed.

End Registry.

(** ** Stage bodies *)

Section Stages.
Import Artifacts Database Tasks Step2Silence Step2Stage Step7IntegrateBroll Examples.
Local Open Scope Z_scope.

Lemma update_project_status_found d vf step status error i p :
  get_project_by_folder d (path_name vf) = Some (i, p) ->
  update_project_status d vf step status error
  = update_project d i (update_data step status error).
Proof. intros H. unfold update_project_status. rewrite H. reflexivity. Qed.






(** Stage 10, when the scheduling service returns. *)
Lemma step10_project prepare upload self prev w i p schedule :
  unique_ids (db w) ->
  get_project_by_folder (db w) (path_name (c_video_folder prev)) = Some (i, p) ->
  snd (on_folder prepare (fs w) (c_video_folder prev)) = Done schedule ->
  let '(w', r) := task_step10_schedule prepare upload self prev w in
  r = Done (mkContinuation true (Some 10) (c_video_folder prev))
  /\ exists p', get_project (db w') i = Some p'
       /\ status p' = "ready_to_upload" /\ progress p' = 90
       /\ current_step p' = Some 10.
Proof.
  intros Hu Hf Hs. unfold task_step10_schedule.
  cbn [update_state set_db set_fs db fs mq task_states].
  rewrite (update_project_status_found _ _ _ _ _ _ _ Hf).
  set (ups := update_data 10 "processing" None).
  pose proof (by_folder_get_project _ _ _ _ Hu Hf) as Hg.
  pose proof (get_project_update _ _ ups _ Hg) as Hg1.
  pose proof (by_folder_update _ _ _ _ ups Hu Hf) as Hf1.
  destruct (on_folder prepare (fs w) (c_video_folder prev)) as [f r] eqn:Hon.
  cbn [snd] in Hs. subst r. rewrite Hf1. cbn [db].
  split; [reflexivity|].
  eexists. split; [apply get_project_update, Hg1|]. simpl. auto.
Qed.

(** For the twelve stages the truncated quotient is what the float
    expression of the source yields. *)
Lemma progress_percent_float :
  forallb (fun step => truncates_to (progress_float step) (progress_percent step))
          [0; 1; 2; 3; 4; 5; 6; 7; 8; 9; 10; 11] = true.
Proof. vm_compute. reflexivity. Qed.

(** The percentages of the twelve stages. *)
Lemma progress_percent_table :
  map progress_percent [0; 1; 2; 3; 4; 5; 6; 7; 8; 9; 10; 11]
  = [0; 8; 16; 25; 33; 41; 50; 58; 66; 75; 83; 91].
Proof. reflexivity. Qed.


Lemma sample_world_unique : unique_ids (db sample_world).
Proof. apply NoDup_singleton. Defined.


(** [remove_silences] writes [segments.json] as soon as the input is
    there, whatever the encoder does afterwards. *)
Lemma remove_silences_writes ff threshold_db min_silence padding
    (dir : gmap string entry) input :
  dir !! "original.mp4" = Some (File input) ->
  dir !! "segments.json" <> Some Folder ->
  (remove_silences ff threshold_db min_silence padding dir).1 !! "segments.json"
  = Some (File (SegmentsDoc
       (segments_document (silencedetect ff input threshold_db min_silence)
                          (probe_duration ff input) threshold_db min_silence padding))).
Proof.
  intros Hin Hseg. unfold remove_silences. rewrite Hin. unfold write_file.
  destruct (dir !! "segments.json") as [[c|]|] eqn:E; try congruence.
  - rewrite lookup_insert_ne by discriminate.
    destruct (dir !! "nosilence.mp4") as [[c'|]|]; simpl;
      [|apply lookup_insert_eq| ];
      (destruct (select_encode ff input _); simpl;
       [rewrite lookup_insert_ne by discriminate|];
       rewrite !lookup_delete_ne by discriminate; apply lookup_insert_eq).
  - rewrite lookup_insert_ne by discriminate.
    destruct (dir !! "nosilence.mp4") as [[c'|]|]; simpl;
      [|apply lookup_insert_eq| ];
      (destruct (select_encode ff input _); simpl;
       [rewrite lookup_insert_ne by discriminate|];
       rewrite !lookup_delete_ne by discriminate; apply lookup_insert_eq).
Qed.





(** Without clips [integrate_broll] is a copy. *)
Lemma integrate_broll_copy overlay (dir : gmap string entry) c :
  dir !! "nosilence.mp4" = Some (File c) ->
  dir !! "broll_clips.json" = None
  \/ dir !! "broll_clips.json" = Some (File (ClipsDoc [])) ->
  integrate_broll overlay dir
  = (copy_file c "illustrated.mp4" dir, Done (mkResult true None)).
Proof.
  intros Hin [Hc|Hc]; unfold integrate_broll; rewrite Hin, Hc; reflexivity.
Qed.

(** C7.  With [nosilence.mp4] in place, [broll_clips.json] absent or
    holding an empty list, and no directory in the way of the output,
    [integrate_broll] succeeds and [illustrated.mp4] is [nosilence.mp4]
    copied as it is: same content, hence the same duration for any probe;
    nothing else in the directory changes. *)
Theorem stage7_copies_without_clips overlay ff (dir : gmap string entry) c :
  dir !! "nosilence.mp4" = Some (File c) ->
  dir !! "broll_clips.json" = None
  \/ dir !! "broll_clips.json" = Some (File (ClipsDoc [])) ->
  dir !! "illustrated.mp4" <> Some Folder ->
  let '(dir', r) := integrate_broll overlay dir in
  r = Done (mkResult true None)
  /\ dir' !! "illustrated.mp4" = Some (File c)
  /\ dir' !! "nosilence.mp4" = Some (File c)
  /\ (exists out, dir' !! "illustrated.mp4" = Some (File out)
        /\ probe_duration ff out = probe_duration ff c)
  /\ forall name, name <> "illustrated.mp4"%string -> dir' !! name = dir !! name.
Proof.
  intros Hin Hc Hout. rewrite (integrate_broll_copy overlay dir c Hin Hc).
  assert (Hcopy : copy_file c "illustrated.mp4" dir = <["illustrated.mp4" := File c]> dir).
  { unfold copy_file. destruct (dir !! "illustrated.mp4") as [[?|]|]; congruence. }
  rewrite Hcopy. split; [reflexivity|].
  split; [apply lookup_insert_eq|].
  split; [rewrite lookup_insert_ne by discriminate; exact Hin|].
  split; [exists c; split; [apply lookup_insert_eq|reflexivity]|].
  intros name Hname. apply lookup_insert_ne. congruence.
Qed.

Lemma stage7_copies_without_clips_witness :
  no_clip_dir !! "nosilence.mp4"%string = Some (File (Media 3))
  /\ no_clip_dir !! "broll_clips.json"%string = Some (File (ClipsDoc []))
  /\ no_clip_dir !! "illustrated.mp4"%string <> Some Folder
  /\ (integrate_broll (fun _ _ d => (d, Raise "unused")) no_clip_dir).1
       !! "illustrated.mp4"%string = Some (File (Media 3)).
Proof.
  assert (H1 : no_clip_dir !! "nosilence.mp4"%string = Some (File (Media 3)))
    by reflexivity.
  assert (H2 : no_clip_dir !! "broll_clips.json"%string = Some (File (ClipsDoc [])))
    by reflexivity.
  assert (H3 : no_clip_dir !! "illustrated.mp4"%string <> Some Folder)
    by discriminate.
  split; [exact H1|]. split; [exact H2|]. split; [exact H3|].
  pose proof (stage7_copies_without_clips (fun _ _ d => (d, Raise "unused"))
                sample_codec no_clip_dir (Media 3) H1 (or_intror H2) H3) as H.
  destruct (integrate_broll _ no_clip_dir) as [dir' r].
  exact (proj1 (proj2 H)).
Defined.

End Stages.

(** ** Orchestration: chains, reboot, manual upload *)

Section Orchestration.
Import Artifacts Database Tasks Main Projects Examples.
Local Open Scope Z_scope.

Lemma partial_pipeline_1_12 video_folder :
  process_partial_pipeline video_folder 1 12
  = started [ s_of step1_merge (folder video_folder);
              s step2_silence; s step3_cut_sources; s step4_transcribe; s step5_shorts;
              s step6_broll; s step7_integrate_broll; s step8_seo; s step9_thumbnail;
              s step10_schedule; s step11_upload ].
Proof. reflexivity. Qed.


Lemma reboot_clean_deleted removable (dir : gmap string entry) name :
  name ∈ (reboot_clean removable dir).2
  <-> is_Some (dir !! name) /\ doomed removable name = true.
Proof.
  unfold reboot_clean. cbn [snd]. rewrite list_elem_of_filter.
  change (map fst (map_to_list dir)) with ((map_to_list dir).*1).
  rewrite list_elem_of_fmap. split.
  - intros [Hd ([k e] & -> & Hin)]. apply elem_of_map_to_list in Hin. simpl in *. eauto.
  - intros [[e He] Hd]. split; [exact Hd|]. exists (name, e). split; [reflexivity|].
    apply elem_of_map_to_list. exact He.
Qed.



Ltac reset_cases :=
  unfold reboot_reset, revoke;
  repeat match goal with
  | |- context [truthy ?x] => destruct (truthy x)
  | |- context [accepting ?m] => destruct (accepting m)
  | |- context [fs ?w !! ?k] => destruct (fs w !! k)
  | |- context [reboot_clean ?r ?d] => destruct (reboot_clean r d)
  end;
  reflexivity.

Lemma reboot_reset_db removable project_id project w :
  db (reboot_reset removable project_id project w).1
  = update_project (db w) project_id reset_updates.
Proof. reset_cases. Qed.


Lemma reboot_reset_mq removable project_id project w :
  mq (reboot_reset removable project_id project w).1
  = if truthy (celery_task_id project)
    then default (mq w) (revoke (default EmptyString (celery_task_id project)) (mq w))
    else mq w.
Proof. reset_cases. Qed.

Lemma reboot_reset_states removable project_id project w :
  task_states (reboot_reset removable project_id project w).1 = task_states w.
Proof. reset_cases. Qed.

Lemma reboot_reset_deleted removable project_id project w :
  (reboot_reset removable project_id project w).2.2
  = match fs w !! ("output/" +:+ folder_name project)%string with
    | Some dir => (reboot_clean removable dir).2
    | None => []
    end.
Proof. reset_cases. Qed.


Lemma reset_mq_queue m id :
  queue (default m (revoke id m)) = queue m
  /\ issued (default m (revoke id m)) = issued m
  /\ uuid4 (default m (revoke id m)) = uuid4 m
  /\ accepting (default m (revoke id m)) = accepting m.
Proof. unfold revoke. destruct (accepting m) eqn:E; simpl; auto. Qed.

Lemma reboot_project_found removable project_id project w :
  get_project (db w) project_id = Some project ->
  reboot_project removable project_id w
  = reboot_relaunch project_id project
      (reboot_reset removable project_id project w).2.1
      (reboot_reset removable project_id project w).2.2
      (reboot_reset removable project_id project w).1.
Proof.
  intros Hg. unfold reboot_project.
  unfold is_connected. rewrite (get_project_connected _ _ _ Hg), Hg. simpl.
  destruct (reboot_reset removable project_id project w) as [w1 [a b]]. reflexivity.
Qed.

Lemma reboot_relaunch_accepted project_id project a b w :
  accepting (mq w) = true ->
  reboot_relaunch project_id project a b w
  = (mkWorld (update_project (db w) project_id
                [ set_celery_task_id (Some (uuid4 (mq w) (issued (mq w))));
                  set_status "processing" ])
             (fs w)
             (mkBroker (uuid4 (mq w)) (S (issued (mq w))) (accepting (mq w))
                (queue (mq w) ++ [(uuid4 (mq w) (issued (mq w)),
                    call_partial_pipeline ("output/" +:+ folder_name project) 1 12)])
                (revoked (mq w)))
             (task_states w),
     OK (mkRebootBody a b files_to_keep (uuid4 (mq w) (issued (mq w))))).
Proof. intros Ha. unfold reboot_relaunch, delay. rewrite Ha. reflexivity. Qed.




(** The chains submitted when a project is created, by the full pipeline
    task and after a cut all stop at stage 10. *)
Lemma automatic_chains_stop_at_10 video_folder :
  stages (process_full_pipeline video_folder) = [1; 2; 3; 4; 5; 6; 7; 8; 9; 10]
  /\ stages (create_project_pipeline video_folder) = [0; 1; 2; 3; 4; 5; 6; 7; 8; 9; 10]
  /\ stages (create_composite_pipeline video_folder) = [1; 2; 3; 4; 5; 6; 7; 8; 9; 10]
  /\ stages (cut_video_pipeline video_folder) = [1; 2; 3; 4; 5; 6; 7; 8; 9; 10].
Proof. repeat split; reflexivity. Qed.

(** The call of the reboot, [process_partial_pipeline(folder, 1, 12)],
    selects the stages 1 to 11. *)
Lemma reboot_chain_stages video_folder :
  stages <$> chain_of (call_partial_pipeline video_folder 1 12)
  = Some [1; 2; 3; 4; 5; 6; 7; 8; 9; 10; 11].
Proof. cbn [chain_of]. rewrite partial_pipeline_1_12. reflexivity. Qed.

(** C2, on the failing input.  Rebooting the sample project queues a
    submission whose chain runs the stages 1 to 11: it contains stage 11. *)
Theorem reboot_submits_stage11 :
  let after := (reboot_project (fun _ => true) "p1" sample_world).1 in
  exists id c,
    last (queue (mq after)) = Some (id, call_partial_pipeline "output/video_1" 1 12)
    /\ chain_of (call_partial_pipeline "output/video_1" 1 12) = Some c
    /\ stages c = [1; 2; 3; 4; 5; 6; 7; 8; 9; 10; 11]
    /\ In 11 (stages c).
Proof.
  cbv zeta. eexists. eexists. split; [vm_compute; reflexivity|].
  split; [cbn [chain_of]; rewrite partial_pipeline_1_12; reflexivity|].
  split; [reflexivity|]. simpl. tauto.
Qed.

Lemma upload_statuses_spec st :
  st ∈ upload_statuses
  <-> st = "ready_to_upload"%string \/ st = "completed"%string \/ st = "failed"%string.
Proof. unfold upload_statuses. rewrite !elem_of_cons, elem_of_nil. tauto. Qed.

Lemma start_youtube_upload_found project_id project w :
  get_project (db w) project_id = Some project ->
  accepting (mq w) = true ->
  start_youtube_upload project_id w
  = if bool_decide (status project ∈ upload_statuses)
    then
      let task_id := uuid4 (mq w) (issued (mq w)) in
      (mkWorld (update_project (db w) project_id
                  [ set_celery_task_id (Some task_id); set_status "processing";
                    set_current_step (Some 11);
                    set_step_name (Some "Upload YouTube en cours...") ])
               (fs w)
               (mkBroker (uuid4 (mq w)) (S (issued (mq w))) (accepting (mq w))
                  (queue (mq w) ++ [(task_id,
                     call_task (s_of step11_upload
                       (previous (mkContinuation true None
                          ("output/" +:+ folder_name project)))))])
                  (revoked (mq w)))
               (task_states w),
       OK (mkUploadBody task_id project_id))
    else (w, HTTPException 400 "Le projet doit être en statut 'ready_to_upload'").
Proof.
  intros Hg Ha. unfold start_youtube_upload, is_connected.
  rewrite (get_project_connected _ _ _ Hg), Hg. simpl.
  destruct (bool_decide (status project ∈ upload_statuses)); simpl; [|reflexivity].
  unfold delay. rewrite Ha. reflexivity.
Qed.

(** C8.  On a connected registry that holds the project and with the
    broker up, the manual upload endpoint submits one task, stage 11 alone,
    when the status is [ready_to_upload], [completed] or [failed], and
    records its handle; for any other status it answers 400 and changes
    nothing, so nothing is submitted. *)
Theorem upload_gate project_id w project :
  get_project (db w) project_id = Some project ->
  accepting (mq w) = true ->
  let out := start_youtube_upload project_id w in
  let task_id := uuid4 (mq w) (issued (mq w)) in
  (status project = "ready_to_upload"%string \/ status project = "completed"%string
   \/ status project = "failed"%string ->
     out.2 = OK (mkUploadBody task_id project_id)
     /\ (exists m, queue (mq out.1) = queue (mq w) ++ [(task_id, m)]
           /\ stages <$> chain_of m = Some [11])
     /\ exists p', get_project (db out.1) project_id = Some p'
          /\ celery_task_id p' = Some task_id)
  /\ (~ (status project = "ready_to_upload"%string \/ status project = "completed"%string
         \/ status project = "failed"%string) ->
     (exists detail, out.2 = HTTPException 400 detail) /\ out.1 = w).
Proof.
  intros Hg Ha. cbv zeta. rewrite (start_youtube_upload_found _ _ _ Hg Ha).
  split.
  - intros Hs. apply upload_statuses_spec in Hs.
    rewrite (bool_decide_eq_true_2 _ Hs). cbn [fst snd mq db queue].
    split; [reflexivity|]. split.
    + eexists. split; reflexivity.
    + eexists. split; [apply get_project_update, Hg|]. reflexivity.
  - intros Hs. rewrite <- upload_statuses_spec in Hs.
    rewrite (bool_decide_eq_false_2 _ Hs). cbn [fst snd]. eauto.
Qed.

Lemma upload_gate_witness :
  get_project (db sample_world) "p1" = Some sample_project
  /\ accepting (mq sample_world) = true
  /\ ~ (status sample_project = "ready_to_upload"%string
        \/ status sample_project = "completed"%string
        \/ status sample_project = "failed"%string)
  /\ (start_youtube_upload "p1" sample_world).1 = sample_world.
Proof.
  assert (Hs : ~ (status sample_project = "ready_to_upload"%string
        \/ status sample_project = "completed"%string
        \/ status sample_project = "failed"%string))
    by (intros [H|[H|H]]; discriminate H).
  split; [reflexivity|]. split; [reflexivity|]. split; [exact Hs|].
  exact (proj2 (proj2 (upload_gate "p1" sample_world sample_project eq_refl eq_refl) Hs)).
Defined.

(** The gate of C8 on a project that is ready: the queue receives
    stage 11 alone. *)
Example upload_of_ready_project :
  map (fun im => stages <$> chain_of im.2)
      (queue (mq (start_youtube_upload "p1" ready_world).1))
  = [Some [11]].
Proof. vm_compute. reflexivity. Qed.

End Orchestration.

(** ** Partial pipelines *)

Section PartialPipelines.
Import Artifacts Database Tasks.
Local Open Scope Z_scope.

Lemma range_elem a b x : In x (range a b) <-> a <= x < b.
Proof.
  unfold range. rewrite in_map_iff. split.
  - intros (n & <- & Hn). apply in_seq in Hn. lia.
  - intros H. exists (Z.to_nat (x - a)). split; [lia|]. apply in_seq. lia.
Qed.

Lemma range_split a b c : a <= b <= c -> range a c = range a b ++ range b c.
Proof.
  intros H. unfold range.
  replace (Z.to_nat (c - a)) with (Z.to_nat (b - a) + Z.to_nat (c - b))%nat by lia.
  rewrite seq_app, map_app. f_equal. simpl.
  rewrite <- (Nat.add_0_r (Z.to_nat (b - a))) at 1.
  rewrite <- fmap_add_seq.
  change (map ?f (?g <$> ?l)) with (map f (map g l)).
  rewrite map_map. apply map_ext. intros n. lia.
Qed.

(** Outside its twelve keys the [steps] table has nothing. *)
Lemma steps_outside i : i < 1 \/ 11 < i -> steps i = None.
Proof.
  intros H. unfold steps.
  repeat match goal with
  | |- context [?x =? ?y] => destruct (Z.eqb_spec x y); [lia|]
  end.
  reflexivity.
Qed.

Lemma omap_nothing {A B} (f : A -> option B) l :
  (forall x, In x l -> f x = None) -> omap f l = [].
Proof.
  induction l as [|x r IH]; intros H; simpl; [reflexivity|].
  rewrite (H x) by now left. apply IH. intros y Hy. apply H. now right.
Qed.

(** Steps asked beyond 11 are dropped. *)
Lemma partial_pipeline_clamp video_folder a b :
  11 <= b ->
  process_partial_pipeline video_folder a b = process_partial_pipeline video_folder a 11.
Proof.
  intros Hb. unfold process_partial_pipeline.
  destruct (Z_le_gt_dec a 12) as [Ha|Ha].
  - rewrite (range_split a 12 (b + 1)) by lia. rewrite omap_app.
    rewrite (omap_nothing _ (range 12 (b + 1))), app_nil_r; [reflexivity|].
    intros x Hx. apply range_elem in Hx. rewrite steps_outside by lia. reflexivity.
  - rewrite (omap_nothing _ (range a (b + 1))), (omap_nothing _ (range a (11 + 1)));
      [reflexivity| |]; intros x Hx; apply range_elem in Hx;
      rewrite steps_outside by lia; reflexivity.
Qed.

Lemma partial_pipeline_in_table video_folder a b :
  1 <= a -> a <= b -> b <= 11 ->
  exists c, process_partial_pipeline video_folder a b = started c
            /\ stages c = range a (b + 1).
Proof.
  intros Ha Hab Hb.
  assert (Ea : a = 1 \/ a = 2 \/ a = 3 \/ a = 4 \/ a = 5 \/ a = 6 \/ a = 7 \/ a = 8
               \/ a = 9 \/ a = 10 \/ a = 11) by lia.
  assert (Eb : b = 1 \/ b = 2 \/ b = 3 \/ b = 4 \/ b = 5 \/ b = 6 \/ b = 7 \/ b = 8
               \/ b = 9 \/ b = 10 \/ b = 11) by lia.
  repeat (destruct Ea as [Ea|Ea]; [subst a|]); try subst a;
    repeat (destruct Eb as [Eb|Eb]; [subst b|]); try subst b;
    try lia; (eexists; split; reflexivity).
Qed.

(** X1.  For a start step in the table and an end step not before it,
    [process_partial_pipeline] submits the stages from the start step to
    the end step, the end step taken as 11 when it is larger: the stages run
    in increasing order without a gap. *)
Theorem partial_pipeline_stages video_folder start_step end_step :
  1 <= start_step <= 11 -> start_step <= end_step ->
  exists c, process_partial_pipeline video_folder start_step end_step = started c
            /\ stages c = range start_step (Z.min end_step 11 + 1).
Proof.
  intros Ha Hab. destruct (Z_le_gt_dec end_step 11) as [Hb|Hb].
  - rewrite Z.min_l by lia. apply partial_pipeline_in_table; lia.
  - rewrite partial_pipeline_clamp, Z.min_r by lia.
    apply partial_pipeline_in_table; lia.
Qed.

Lemma partial_pipeline_stages_witness :
  1 <= 4 <= 11 /\ 4 <= 7
  /\ exists c, process_partial_pipeline "output/video_1" 4 7 = started c
               /\ stages c = [4; 5; 6; 7].
Proof.
  assert (H1 : 1 <= 4 <= 11) by lia. assert (H2 : 4 <= 7) by lia.
  split; [exact H1|]. split; [exact H2|].
  destruct (partial_pipeline_stages "output/video_1" 4 7 H1 H2) as (c & Hc & Hs).
  exists c. split; [exact Hc|exact Hs].
Defined.

Lemma selected_nonempty a b :
  a <= 1 <= b -> omap (fun i => s <$> steps i) (range a (b + 1)) <> [].
Proof.
  intros H Hnil.
  assert (Hin : s step1_merge ∈ omap (fun i => s <$> steps i) (range a (b + 1))).
  { apply list_elem_of_omap. exists 1. split; [|reflexivity].
    apply list_elem_of_In, range_elem. lia. }
  rewrite Hnil in Hin. inversion Hin.
Qed.

(** X2.  The edges of [process_partial_pipeline]: an empty or out-of-table
    range selects nothing and nothing is submitted; a start step below 1
    whose range reaches the table raises on [steps[start_step]], so nothing
    is submitted either. *)
Theorem partial_pipeline_edges video_folder start_step end_step :
  (end_step < start_step \/ end_step < 1 \/ 11 < start_step ->
     process_partial_pipeline video_folder start_step end_step = none_selected)
  /\ (start_step < 1 <= end_step ->
     process_partial_pipeline video_folder start_step end_step = key_error).
Proof.
  split.
  - intros H. unfold process_partial_pipeline.
    rewrite omap_nothing; [reflexivity|].
    intros x Hx. apply range_elem in Hx. rewrite steps_outside by lia. reflexivity.
  - intros H. unfold process_partial_pipeline.
    pose proof (selected_nonempty start_step end_step ltac:(lia)) as Hne.
    destruct (omap _ (range start_step (end_step + 1))) as [|x r]; [congruence|].
    destruct (Z.eqb_spec start_step 1); [lia|].
    rewrite steps_outside by lia. reflexivity.
Qed.

End PartialPipelines.

(** ** Paths, registry frame and stage outcomes *)

Section StageOutcomes.
Import Artifacts Database Tasks Publication Projects Control Examples.
Local Open Scope Z_scope.





Lemma find_id_update_one_ne i j ups docs :
  i <> j -> find_id j (update_one i ups docs) = find_id j docs.
Proof.
  intros Hij. induction docs as [|[k q] r IH]; simpl; [reflexivity|].
  case_bool_decide as Hk; simpl.
  - subst k. rewrite !bool_decide_eq_false_2 by assumption. reflexivity.
  - case_bool_decide; [reflexivity|exact IH].
Qed.

Lemma get_project_update_ne d i j ups :
  i <> j -> get_project (update_project d i ups) j = get_project d j.
Proof.
  intros Hij. unfold get_project, update_project, is_connected.
  destruct d as [c docs]; simpl. destruct c; simpl; [|reflexivity].
  apply find_id_update_one_ne, Hij.
Qed.

(** X4.  [update_project_status] touches one project at most: when no
    project has the folder name (or the registry is down) the registry is
    unchanged, and otherwise every project under another id reads as
    before. *)
Theorem update_project_status_frame d video_folder step status error :
  (get_project_by_folder d (path_name video_folder) = None ->
     update_project_status d video_folder step status error = d)
  /\ (forall i p j,
        get_project_by_folder d (path_name video_folder) = Some (i, p) -> i <> j ->
        get_project (update_project_status d video_folder step status error) j
        = get_project d j).
Proof.
  split.
  - intros H. unfold update_project_status. rewrite H. reflexivity.
  - intros i p j H Hij. rewrite (update_project_status_found _ _ _ _ _ _ _ H).
    apply get_project_update_ne, Hij.
Qed.




End StageOutcomes.

(** ** Publication and the controller's gates *)

Section Gates.
Import Artifacts Database Tasks Publication Projects Control Examples.
Local Open Scope Z_scope.

Lemma update_data_completed step error p :
  let p' := fold_left assign (update_data step "completed" error) p in
  status p' = "completed"%string /\ current_step p' = Some step
  /\ progress p' = 100
  /\ step_name p' = Some (default ("Étape " +:+ pretty step) (STEP_NAMES step)).
Proof. unfold update_data. destruct (truthy error); simpl; auto. Qed.

(** X6.  When the upload service returns, whatever success it reports,
    stage 11 leaves the project [completed] with progress 100 at step 11
    under the step name of the table; the stage returns, handing on the
    reported success flag. *)
Theorem step11_completes upload self prev w i p ok uploads :
  unique_ids (db w) ->
  get_project_by_folder (db w) (path_name (c_video_folder prev)) = Some (i, p) ->
  (on_folder upload (fs w) (c_video_folder prev)).2 = Done (ok, uploads) ->
  let out := task_step11_upload upload self prev w in
  out.2 = Done (mkContinuation ok (Some 11) (c_video_folder prev))
  /\ exists p', get_project (db out.1) i = Some p'
       /\ status p' = "completed"%string /\ progress p' = 100
       /\ current_step p' = Some 11
       /\ step_name p' = Some "Upload YouTube"%string.
Proof.
  intros Hu Hf Hs. cbv zeta. unfold task_step11_upload.
  cbn [update_state set_db set_fs db fs mq task_states].
  rewrite (update_project_status_found _ _ _ _ _ _ _ Hf).
  set (ups := update_data 11 "processing" None).
  pose proof (by_folder_update _ _ _ _ ups Hu Hf) as Hf1.
  pose proof (update_project_unique _ i ups Hu) as Hu1.
  destruct (on_folder upload (fs w) (c_video_folder prev)) as [f r].
  cbn [snd] in Hs. subst r. rewrite Hf1. cbn [set_db db fs mq task_states].
  set (ups2 := [set_outputs _; set_status _; set_progress _; set_current_step _;
                set_step_name _]).
  pose proof (by_folder_update _ _ _ _ ups2 Hu1 Hf1) as Hf2.
  pose proof (update_project_unique _ i ups2 Hu1) as Hu2.
  rewrite (update_project_status_found _ _ _ _ _ _ _ Hf2).
  cbn [fst snd db]. split; [reflexivity|].
  eexists. split; [apply get_project_update, (by_folder_get_project _ _ _ _ Hu2 Hf2)|].
  pose proof (update_data_completed 11 None
                (fold_left assign ups2 (fold_left assign ups p))) as H.
  cbv zeta in H. destruct H as (H1 & H2 & H3 & H4). auto.
Qed.

Lemma step11_completes_witness :
  unique_ids (db sample_world)
  /\ (task_step11_upload (fun d => (d, Done (false, "{}"%string))) (mkRequest "h")
        after_merge sample_world).2
     = Done (mkContinuation false (Some 11) "output/video_1").
Proof.
  split; [exact sample_world_unique|].
  exact (proj1 (step11_completes (fun d => (d, Done (false, "{}"%string)))
                  (mkRequest "h") after_merge sample_world "p1" sample_project
                  false "{}" sample_world_unique eq_refl eq_refl)).
Defined.

Lemma start_youtube_upload_rejects project_id project w :
  get_project (db w) project_id = Some project ->
  status project ∉ upload_statuses ->
  exists detail, start_youtube_upload project_id w = (w, HTTPException 400 detail).
Proof.
  intros Hg Hs. unfold start_youtube_upload, is_connected.
  rewrite (get_project_connected _ _ _ Hg), Hg. simpl.
  rewrite (bool_decide_eq_false_2 _ Hs). simpl. eauto.
Qed.

(** X7.  Stage 10 opens the gate: once [task_step10_schedule] has
    returned, the manual upload endpoint accepts the project (broker up)
    and queues stage 11 under a new handle. *)
Theorem schedule_then_upload prepare upload self prev w i p schedule :
  unique_ids (db w) ->
  get_project_by_folder (db w) (path_name (c_video_folder prev)) = Some (i, p) ->
  (on_folder prepare (fs w) (c_video_folder prev)).2 = Done schedule ->
  accepting (mq w) = true ->
  let w10 := (task_step10_schedule prepare upload self prev w).1 in
  (start_youtube_upload i w10).2
  = OK (mkUploadBody (uuid4 (mq w) (issued (mq w))) i).
Proof.
  intros Hu Hf Hs Ha. cbv zeta.
  pose proof (step10_project prepare upload self prev w i p schedule Hu Hf Hs) as H.
  assert (Hmq : mq (task_step10_schedule prepare upload self prev w).1 = mq w).
  { unfold task_step10_schedule.
    cbn [update_state set_db set_fs db fs mq task_states].
    rewrite (update_project_status_found _ _ _ _ _ _ _ Hf).
    rewrite (surjective_pairing (on_folder prepare (fs w) (c_video_folder prev))), Hs.
    cbn [set_db db fs mq task_states].
    rewrite (by_folder_update _ _ _ _ (update_data 10 "processing" None) Hu Hf).
    reflexivity. }
  destruct (task_step10_schedule prepare upload self prev w) as [w10 r].
  destruct H as (_ & p' & Hg & Hst & _). cbn [fst] in *.
  rewrite (start_youtube_upload_found _ _ _ Hg) by (rewrite Hmq; exact Ha).
  rewrite bool_decide_eq_true_2 by (rewrite Hst; apply upload_statuses_spec; auto).
  cbn [snd]. rewrite Hmq. reflexivity.
Qed.

Lemma schedule_then_upload_witness :
  unique_ids (db sample_world) /\ accepting (mq sample_world) = true
  /\ (start_youtube_upload "p1"
        (task_step10_schedule (fun d => (d, Done "{}"%string))
           (fun _ => Done "{}"%string) (mkRequest "h") after_merge sample_world).1).2
     = OK (mkUploadBody (uuid4 sample_broker 1%nat) "p1").
Proof.
  split; [exact sample_world_unique|]. split; [reflexivity|].
  exact (schedule_then_upload (fun d => (d, Done "{}"%string))
           (fun _ => Done "{}"%string) (mkRequest "h") after_merge sample_world
           "p1" sample_project "{}" sample_world_unique eq_refl eq_refl eq_refl).
Defined.

(** X8.  A reboot closes the gate: right after [reboot_project] succeeded
    the project is [processing], so the manual upload endpoint answers 400
    and leaves registry, files and queue as the reboot left them. *)
Theorem reboot_then_upload_rejected removable project_id w project :
  get_project (db w) project_id = Some project ->
  accepting (mq w) = true ->
  let rebooted := (reboot_project removable project_id w).1 in
  exists detail,
    start_youtube_upload project_id rebooted = (rebooted, HTTPException 400 detail).
Proof.
  intros Hg Ha. cbv zeta.
  pose proof (get_project_update _ _ reset_updates _ Hg) as Hg1.
  rewrite <- (reboot_reset_db removable project_id project w) in Hg1.
  assert (Hacc : accepting (mq (reboot_reset removable project_id project w).1) = true).
  { rewrite reboot_reset_mq. destruct (truthy _); [|exact Ha].
    destruct (reset_mq_queue (mq w) (default EmptyString (celery_task_id project)))
      as (_ & _ & _ & ->). exact Ha. }
  rewrite (reboot_project_found _ _ _ _ Hg), (reboot_relaunch_accepted _ _ _ _ _ Hacc).
  cbn [fst].
  eapply start_youtube_upload_rejects.
  - cbn [db]. apply get_project_update, Hg1.
  - simpl. intros H. apply upload_statuses_spec in H.
    destruct H as [H|[H|H]]; discriminate H.
Qed.

Lemma reboot_then_upload_rejected_witness :
  get_project (db sample_world) "p1" = Some sample_project
  /\ accepting (mq sample_world) = true
  /\ exists detail,
       (start_youtube_upload "p1" (reboot_project (fun _ => true) "p1" sample_world).1).2
       = HTTPException 400 detail.
Proof.
  split; [reflexivity|]. split; [reflexivity|].
  destruct (reboot_then_upload_rejected (fun _ => true) "p1" sample_world
              sample_project eq_refl eq_refl) as (detail & H).
  exists detail. rewrite H. reflexivity.
Defined.

Lemma stop_pipeline_found project_id project w :
  get_project (db w) project_id = Some project ->
  exists label b body,
    stop_pipeline project_id w
    = (mkWorld (update_project (db w) project_id
                  [ set_status "stopped"; set_celery_task_id None;
                    set_step_name (Some label) ])
               (fs w) b (task_states w), OK body)
    /\ queue b = queue (mq w)
    /\ stopped_at_step body = current_step project.
Proof.
  intros Hg. unfold stop_pipeline. rewrite Hg. unfold revoke.
  destruct (truthy (celery_task_id project)); [destruct (accepting (mq w))|];
    cbn zeta; eexists; eexists; eexists; split; try reflexivity; split; reflexivity.
Qed.

(** X9.  [stop_pipeline] preserves the work done: the file system and the
    queue are untouched and the project keeps its [current_step] and
    progress; only the status becomes [stopped] and the handle is cleared.
    A stopped project is then refused by the manual upload endpoint. *)
Theorem stop_preserves_artifacts project_id w project :
  get_project (db w) project_id = Some project ->
  let stopped := (stop_pipeline project_id w).1 in
  fs stopped = fs w
  /\ queue (mq stopped) = queue (mq w)
  /\ (exists p', get_project (db stopped) project_id = Some p'
        /\ status p' = "stopped"%string /\ celery_task_id p' = None
        /\ current_step p' = current_step project
        /\ progress p' = progress project
        /\ outputs p' = outputs project)
  /\ exists detail,
       (start_youtube_upload project_id stopped).2 = HTTPException 400 detail.
Proof.
  intros Hg. cbv zeta.
  destruct (stop_pipeline_found _ _ _ Hg) as (label & b & body & -> & Hq & _).
  cbn [fst fs mq db]. split; [reflexivity|]. split; [exact Hq|].
  pose proof (get_project_update _ _
                [set_status "stopped"; set_celery_task_id None; set_step_name (Some label)]
                _ Hg) as Hg1.
  split.
  - eexists. split; [exact Hg1|]. simpl. auto.
  - destruct (start_youtube_upload_rejects project_id _
                (mkWorld (update_project (db w) project_id
                            [set_status "stopped"; set_celery_task_id None;
                             set_step_name (Some label)])
                         (fs w) b (task_states w)) Hg1) as (detail & H).
    + simpl. intros H. apply upload_statuses_spec in H.
      destruct H as [H|[H|H]]; discriminate H.
    + exists detail. rewrite H. reflexivity.
Qed.

Lemma stop_preserves_artifacts_witness :
  get_project (db sample_world) "p1" = Some sample_project
  /\ fs (stop_pipeline "p1" sample_world).1 = fs sample_world.
Proof.
  split; [reflexivity|].
  exact (proj1 (stop_preserves_artifacts "p1" sample_world sample_project eq_refl)).
Defined.

End Gates.

(** ** Stage 2 beyond the complement: bounds, counts and the directory *)

Section SilenceStage.
Import QAux Step2Silence Bounds Artifacts Step2Stage Examples.
Local Open Scope Q_scope.

Lemma end_or_start_from_origin s :
  0 <= sil_start s -> (forall e, sil_end s = Some e -> 0 <= e) -> 0 <= end_or_start s.
Proof.
  intros Hs He. unfold end_or_start. destruct (sil_end s) as [e|]; [|exact Hs].
  destruct (Qeq_bool e 0); [exact Hs|]. apply He. reflexivity.
Qed.

Lemma speech_loop_inside total_duration padding silences : forall st,
  from_origin silences ->
  Forall (inside total_duration) st.1 -> 0 <= st.2 ->
  let st' := fold_left (speech_step total_duration padding) silences st in
  Forall (inside total_duration) st'.1 /\ 0 <= st'.2.
Proof.
  induction silences as [|s r IH]; intros [segs last_end] Ho Hin Hl; simpl in *.
  - split; assumption.
  - inversion Ho as [|? ? [Hs He] Hr]; subst.
    apply IH; [exact Hr| |]; simpl.
    + destruct (Qltb (_ + _) _); [|exact Hin].
      apply Forall_app. split; [exact Hin|]. constructor; [|constructor].
      unfold inside; simpl. split.
      * destruct (Qltb 0 last_end); [apply Q.le_max_l|exact Hl].
      * apply Q.le_min_l.
    + apply end_or_start_from_origin; assumption.
Qed.

Lemma merge_step_inside total_duration merged seg :
  Forall (inside total_duration) merged -> inside total_duration seg ->
  Forall (inside total_duration) (merge_step merged seg).
Proof.
  intros Hm Hs. unfold merge_step.
  destruct (last merged) as [m|] eqn:El.
  - destruct (Qltb _ _).
    + apply last_Some in El as [l' ->]. rewrite removelast_last.
      apply Forall_app in Hm as [Hl Hm]. inversion Hm as [|? ? Hmm _]; subst.
      apply Forall_app. split; [exact Hl|].
      constructor; [|constructor]. split; simpl; [apply Hmm|apply Hs].
    + apply Forall_app. split; [exact Hm|]. constructor; [exact Hs|constructor].
  - apply Forall_app. split; [exact Hm|]. constructor; [exact Hs|constructor].
Qed.

Lemma merge_loop_inside total_duration segs : forall merged,
  Forall (inside total_duration) merged -> Forall (inside total_duration) segs ->
  Forall (inside total_duration) (fold_left merge_step segs merged).
Proof.
  induction segs as [|s r IH]; intros merged Hm Hs; simpl; [exact Hm|].
  inversion Hs; subst. apply IH; [apply merge_step_inside|]; assumption.
Qed.

(** X10.  Whatever the order of the silences and whether or not they
    have an end, as long as none lies before the origin every kept segment
    of [get_speech_segments] lies inside the input: [0 <= start] and
    [end <= total_duration]. *)
Theorem speech_segments_inside silences total_duration padding :
  from_origin silences ->
  Forall (inside total_duration) (get_speech_segments silences total_duration padding).
Proof.
  intros Ho. unfold get_speech_segments.
  pose proof (speech_loop_inside total_duration padding silences ([], 0) Ho
                (List.Forall_nil _) (Qle_refl 0)) as H.
  cbv zeta in H.
  destruct (fold_left _ silences ([], 0)) as [segs last_end]. simpl in H.
  destruct H as [Hin Hl].
  apply merge_loop_inside; [constructor|].
  destruct (Qltb last_end total_duration); [|exact Hin].
  apply Forall_app. split; [exact Hin|]. constructor; [|constructor].
  split; simpl; [apply Q.le_max_l|apply Qle_refl].
Qed.

Lemma speech_segments_inside_witness :
  from_origin open_ended
  /\ Forall (inside 10) (get_speech_segments open_ended 10 DEFAULT_PADDING).
Proof.
  assert (H : from_origin open_ended).
  { unfold open_ended. repeat constructor; simpl; try lra;
      intros e He; inversion He; subst; lra. }
  split; [exact H|]. exact (speech_segments_inside open_ended 10 DEFAULT_PADDING H).
Defined.

Lemma speech_loop_length total_duration padding silences : forall st,
  (length (fold_left (speech_step total_duration padding) silences st).1
   <= length st.1 + length silences)%nat.
Proof.
  induction silences as [|s r IH]; intros [segs last_end]; simpl; [lia|].
  etransitivity; [apply IH|]. simpl.
  destruct (Qltb _ _); [rewrite length_app|]; simpl; lia.
Qed.

Lemma merge_step_length merged seg :
  (length (merge_step merged seg) <= S (length merged))%nat.
Proof.
  unfold merge_step. destruct (last merged) as [m|] eqn:El.
  - destruct (Qltb _ _).
    + apply last_Some in El as [l' ->].
      rewrite removelast_last, !length_app. simpl. lia.
    + rewrite length_app. simpl. lia.
  - rewrite length_app. simpl. lia.
Qed.

Lemma merge_loop_length segs : forall merged,
  (length (fold_left merge_step segs merged) <= length merged + length segs)%nat.
Proof.
  induction segs as [|s r IH]; intros merged; simpl; [lia|].
  etransitivity; [apply IH|]. pose proof (merge_step_length merged s). lia.
Qed.

(** X11.  [get_speech_segments] keeps at most one segment more than there
    are silences, for every input. *)
Theorem speech_segments_count silences total_duration padding :
  (length (get_speech_segments silences total_duration padding)
   <= S (length silences))%nat.
Proof.
  unfold get_speech_segments.
  pose proof (speech_loop_length total_duration padding silences ([], 0)) as H.
  destruct (fold_left _ silences ([], 0)) as [segs last_end]. simpl in H.
  etransitivity; [apply merge_loop_length|]. simpl.
  destruct (Qltb last_end total_duration); [rewrite length_app|]; simpl; lia.
Qed.

Lemma remove_silences_frame ff threshold_db min_silence padding
    (dir : gmap string entry) name :
  name <> "segments.json"%string -> name <> "nosilence.mp4"%string ->
  name <> "temp_segments"%string ->
  (remove_silences ff threshold_db min_silence padding dir).1 !! name = dir !! name.
Proof.
  intros H1 H2 H3. unfold remove_silences, write_file.
  destruct (dir !! "original.mp4") as [[input|]|]; [|reflexivity..].
  destruct (dir !! "segments.json") as [[c|]|]; [|reflexivity|];
    (destruct (_ !! "nosilence.mp4") as [[c'|]|]; [|simpl; apply lookup_insert_ne; congruence|];
     (destruct (select_encode ff input _); simpl;
      [rewrite lookup_insert_ne by congruence|];
      rewrite !lookup_delete_ne by congruence; apply lookup_insert_ne; congruence)).
Qed.

(** X12.  [remove_silences] touches three entries of the project
    directory at most, [segments.json], [nosilence.mp4] and the scratch
    directory [temp_segments]: every other entry, the source [original.mp4]
    included, is the same after the call, whatever the outcome. *)
Theorem stage2_leaves_the_rest ff threshold_db min_silence padding
    (dir : gmap string entry) name :
  name ∉ ["segments.json"; "nosilence.mp4"; "temp_segments"]%string ->
  (remove_silences ff threshold_db min_silence padding dir).1 !! name = dir !! name.
Proof.
  intros H. apply remove_silences_frame; intros ->; apply H; set_solver.
Qed.

Lemma stage2_leaves_the_rest_witness :
  (remove_silences sample_codec (-30) 1 (1 # 10) sample_dir).1 !! "original.mp4"
  = sample_dir !! "original.mp4".
Proof.
  apply (stage2_leaves_the_rest sample_codec (-30) 1 (1 # 10) sample_dir "original.mp4").
  intros H. repeat (apply elem_of_cons in H as [H|H]; [discriminate H|]).
  inversion H.
Defined.



End SilenceStage.

(** ** Stage 5 beyond the window bounds *)

Section ShortsBeyond.
Import QAux Step5Shorts Examples.
Local Open Scope Q_scope.

Lemma Qabsv_zero a b : a == b -> Qabsv (a - b) == 0.
Proof.
  intros H. unfold Qabsv. destruct (Qltb (a - b) 0) eqn:E; lra.
Qed.

Lemma Qabsv_small a b : Qabsv (a - b) <= 0 -> a == b.
Proof.
  unfold Qabsv. destruct (Qltb (a - b) 0) eqn:E; intros H.
  - apply Qltb_true in E. lra.
  - apply Qltb_false in E. lra.
Qed.

Lemma nearest_hit target values v :
  In v values -> v == target -> nearest target values == target.
Proof.
  intros Hin Hv.
  destruct (nearest_closest target values) as [_ Hmin].
  { intros ->. destruct Hin. }
  apply Qabsv_small. pose proof (Hmin v Hin) as H.
  pose proof (Qabsv_zero _ _ Hv) as H0. lra.
Qed.

(** X14.  Snapping leaves alone a window that already sits on the
    boundaries: when [start] is the start of a segment, [end] the end of a
    segment and [start < end], [snap_to_segment_boundaries] returns the
    same two instants. *)
Theorem snap_fixes_boundary_windows start stop segments :
  (exists seg, In seg segments /\ get_start seg == start) ->
  (exists seg, In seg segments /\ get_end seg == stop) ->
  start < stop ->
  let w := snap_to_segment_boundaries start stop segments in
  fst w == start /\ snd w == stop.
Proof.
  intros (sa & Ha & Hsa) (sb & Hb & Hsb) Hlt.
  assert (Hne : segments <> []) by (intros ->; destruct Ha).
  pose proof (snap_shape start stop segments Hne) as H. cbv zeta in *.
  destruct H as (_ & Hfst & _ & Hsnd).
  assert (Es : nearest start (map get_start segments) == start).
  { apply (nearest_hit _ _ (get_start sa)); [apply in_map, Ha|exact Hsa]. }
  assert (Ee : nearest stop (map get_end segments) == stop).
  { apply (nearest_hit _ _ (get_end sb)); [apply in_map, Hb|exact Hsb]. }
  split.
  - rewrite Hfst. exact Es.
  - rewrite Hsnd; [exact Ee|]. lra.
Qed.

Lemma snap_fixes_boundary_windows_witness :
  (exists seg, In seg three_phrases /\ get_start seg == 0)
  /\ (snap_to_segment_boundaries 0 (get_end (hd (seg_of 0 0) three_phrases))
        three_phrases).1 == 0.
Proof.
  assert (H0 : exists seg, In seg three_phrases /\ get_start seg == 0).
  { eexists. split; [left; reflexivity|]. vm_compute. reflexivity. }
  split; [exact H0|].
  refine (proj1 (snap_fixes_boundary_windows 0 _ three_phrases H0 _ _)).
  - eexists. split; [left; reflexivity|]. apply Qeq_refl.
  - vm_compute. reflexivity.
Defined.

Lemma shorts_loop_titles env tagged segments l : forall acc,
  exists t,
    map sh_title (fold_left (shorts_step env tagged segments) l acc)
    = map sh_title acc ++ t
    /\ sublist t (map (fun isug => short_title tagged isug.1 isug.2) l).
Proof.
  induction l as [|[i sug] r IH]; intros acc; cbn [fold_left map fst snd].
  - exists []. rewrite app_nil_r. split; [reflexivity|constructor].
  - destruct (IH (shorts_step env tagged segments acc (i, sug))) as (t & -> & Ht).
    unfold shorts_step.
    destruct (adjusted_window segments sug) as [start stop].
    destruct (sr_success _).
    + exists (short_title tagged i sug :: t). rewrite map_app, <- app_assoc.
      split; [reflexivity|]. apply sublist_skip, Ht.
    + exists t. split; [reflexivity|]. apply sublist_cons, Ht.
Qed.

(** X15.  [generate_shorts] makes at most one short per suggestion and
    keeps their order: the titles of the shorts it returns are a
    subsequence of the titles computed for the suggestions. *)
Theorem shorts_follow_suggestions env tagged suggestions segments :
  sublist (map sh_title (shorts (generate_shorts env tagged suggestions segments).2))
          (imap (short_title tagged) suggestions).
Proof.
  unfold generate_shorts. destruct suggestions as [|s0 r]; [constructor|].
  set (l := s0 :: r). cbn [snd shorts].
  destruct (shorts_loop_titles env tagged segments
              (imap (fun i sug => (i, sug)) l) []) as (t & -> & Ht).
  simpl app.
  replace (imap (short_title tagged) l)
    with (map (fun isug : nat * suggestion => short_title tagged isug.1 isug.2)
              (imap (fun i sug => (i, sug)) l)); [exact Ht|].
  change (map ?f ?x) with (f <$> x). rewrite fmap_imap. reflexivity.
Qed.

End ShortsBeyond.

(** ** Cutting the sources: what is kept *)

Section Cutting.
Import QAux Step2Silence Projects CutPlan.
Local Open Scope Q_scope.

Lemma keep_loop_unfold duration cuts : forall keep current_start,
  (let '(k, c) := fold_left keep_step cuts (keep, current_start) in
   if Qltb c duration then k ++ [mkSegment c duration] else k)
  = keep ++ keep_from current_start cuts duration.
Proof.
  induction cuts as [|c r IH]; intros keep cur; cbn [fold_left keep_from].
  - destruct (Qltb cur duration); [reflexivity|]. symmetry. apply app_nil_r.
  - unfold keep_step at 2. rewrite IH.
    destruct (Qltb cur (cut_start c)); [rewrite <- app_assoc|]; reflexivity.
Qed.

Lemma keep_segments_from cuts duration :
  keep_segments cuts duration = keep_from 0 cuts duration.
Proof. exact (keep_loop_unfold duration cuts [] 0). Qed.

Lemma insert_cut_In x c l : In x (insert_cut c l) <-> x = c \/ In x l.
Proof.
  induction l as [|d r IH]; simpl; [intuition congruence|].
  destruct (Qleb _ _); simpl; [intuition congruence|]. rewrite IH. intuition congruence.
Qed.

Lemma sorted_In x cuts : In x (sorted cuts) <-> In x cuts.
Proof.
  induction cuts as [|c r IH]; simpl; [tauto|].
  rewrite insert_cut_In, IH. intuition congruence.
Qed.

Lemma insert_cut_length c l :
  cut_length (insert_cut c l) == (cut_end c - cut_start c) + cut_length l.
Proof.
  induction l as [|d r IH]; simpl; [reflexivity|].
  destruct (Qleb _ _); simpl; [reflexivity|]. rewrite IH. ring.
Qed.

Lemma sorted_length cuts : cut_length (sorted cuts) == cut_length cuts.
Proof.
  induction cuts as [|c r IH]; simpl; [reflexivity|].
  rewrite insert_cut_length, IH. reflexivity.
Qed.

Lemma insert_cut_order c : forall l lo,
  in_order lo l -> lo <= cut_start c -> cut_start c < cut_end c ->
  Forall (apart c) l -> in_order lo (insert_cut c l).
Proof.
  induction l as [|d r IH]; intros lo Hl Hlo Hc Ha; simpl.
  - auto.
  - destruct Hl as (Hd1 & Hd2 & Hr). inversion Ha as [|? ? Had Har]; subst.
    destruct (Qleb (cut_start c) (cut_start d)) eqn:E; simpl.
    + apply Qleb_true in E. repeat split; auto.
      destruct Had as [H|H]; lra.
    + apply Qleb_false in E. repeat split; auto.
      apply IH; auto. destruct Had as [H|H]; lra.
Qed.

Lemma sorted_order duration cuts :
  Forall (proper duration) cuts -> disjoint cuts -> in_order 0 (sorted cuts).
Proof.
  induction cuts as [|c r IH]; intros Hp Hd; simpl; [exact I|].
  inversion Hp as [|? ? (H0 & H1 & H2) Hr]; subst. destruct Hd as [Ha Hd].
  apply insert_cut_order; [apply IH; assumption|exact H0|exact H1|].
  apply List.Forall_forall. intros x Hx. apply (proj1 (sorted_In _ _)) in Hx.
  rewrite List.Forall_forall in Ha. apply Ha, Hx.
Qed.

Lemma in_order_after lo cuts :
  in_order lo cuts -> Forall (fun c => lo <= cut_start c) cuts.
Proof.
  revert lo. induction cuts as [|c r IH]; intros lo H; constructor.
  - apply H.
  - destruct H as (H1 & H2 & H3). apply IH in H3.
    eapply Forall_impl; [exact H3|]. simpl. intros x Hx. lra.
Qed.

Lemma keep_from_length duration cuts : forall cur,
  in_order cur cuts -> Forall (fun c => cut_end c <= duration) cuts -> cur <= duration ->
  kept_length (keep_from cur cuts duration) + cut_length cuts == duration - cur.
Proof.
  induction cuts as [|c r IH]; intros cur Ho Hd Hc; simpl.
  - destruct (Qltb cur duration) eqn:E; simpl.
    + ring.
    + apply Qltb_false in E. lra.
  - destruct Ho as (H1 & H2 & H3). inversion Hd as [|? ? Hcd Hrd]; subst.
    specialize (IH (cut_end c) H3 Hrd Hcd).
    destruct (Qltb cur (cut_start c)) eqn:E; simpl.
    + lra.
    + apply Qltb_false in E. lra.
Qed.

Lemma keep_from_clear duration cuts : forall cur,
  in_order cur cuts -> Forall (fun c => cut_end c <= duration) cuts ->
  Forall (fun g => cur <= seg_start g /\ clear_of cuts g) (keep_from cur cuts duration).
Proof.
  induction cuts as [|c r IH]; intros cur Ho Hd; simpl.
  - destruct (Qltb cur duration) eqn:E; constructor; [|constructor].
    apply Qltb_true in E. split; simpl; [apply Qle_refl|]. split; [exact E|constructor].
  - destruct Ho as (H1 & H2 & H3). inversion Hd as [|? ? Hcd Hrd]; subst.
    specialize (IH (cut_end c) H3 Hrd).
    assert (Hrest : Forall (fun g => cur <= seg_start g /\ clear_of (c :: r) g)
                           (keep_from (cut_end c) r duration)).
    { eapply Forall_impl; [exact IH|]. simpl. intros g (Hg & Hlen & Hcl).
      split; [lra|]. split; [exact Hlen|]. constructor; [right; exact Hg|exact Hcl]. }
    destruct (Qltb cur (cut_start c)) eqn:E; simpl; [|exact Hrest].
    constructor; [|exact Hrest]. apply Qltb_true in E.
    split; simpl; [apply Qle_refl|]. split; [exact E|]. simpl.
    constructor; [left; apply Qle_refl|].
    eapply Forall_impl; [exact (in_order_after _ _ H3)|]. simpl. intros x Hx. left. lra.
Qed.

Lemma sorted_nonempty cuts : cuts <> [] -> sorted cuts <> [].
Proof.
  destruct cuts as [|c r]; [congruence|]. intros _ H.
  assert (Hin : In c (sorted (c :: r))) by (apply sorted_In; left; reflexivity).
  rewrite H in Hin. destruct Hin.
Qed.

Lemma cut_plan_cases cuts duration :
  cuts <> [] ->
  match cut_plan cuts duration with
  | OK keep => keep = keep_from 0 (sorted cuts) duration /\ keep <> []
  | HTTPException code _ => code = 400%Z /\ keep_from 0 (sorted cuts) duration = []
  end.
Proof.
  intros Hne. unfold cut_plan. apply sorted_nonempty in Hne.
  destruct (sorted cuts) as [|c r] eqn:E; [congruence|].
  rewrite keep_segments_from.
  destruct (keep_from 0 (c :: r) duration); [split; reflexivity|].
  split; [reflexivity|discriminate].
Qed.

(** X16.  For non-overlapping cuts inside the recording, given in any
    order, [cut_video] keeps the complement: when it goes on, the kept
    segments all have a length, none overlaps a cut, and their lengths and
    those of the cuts add up to the duration; it answers 400 only when the
    cuts cover the whole recording. *)
Theorem cut_keeps_the_complement cuts duration :
  cuts <> [] -> Forall (proper duration) cuts -> disjoint cuts ->
  match cut_plan cuts duration with
  | OK keep =>
      Forall (clear_of cuts) keep
      /\ kept_length keep + cut_length cuts == duration
  | HTTPException code _ => code = 400%Z /\ cut_length cuts == duration
  end.
Proof.
  intros Hne Hp Hd.
  pose proof (sorted_order duration cuts Hp Hd) as Ho.
  assert (Hend : Forall (fun c => cut_end c <= duration) (sorted cuts)).
  { apply List.Forall_forall. intros x Hx. apply (proj1 (sorted_In _ _)) in Hx.
    rewrite List.Forall_forall in Hp. apply Hp, Hx. }
  assert (H0 : 0 <= duration).
  { destruct cuts as [|c r]; [congruence|].
    inversion Hp as [|? ? (H1 & H2 & H3) _]; subst. lra. }
  pose proof (keep_from_length duration (sorted cuts) 0 Ho Hend H0) as Hlen.
  pose proof (keep_from_clear duration (sorted cuts) 0 Ho Hend) as Hcl.
  rewrite sorted_length in Hlen.
  pose proof (cut_plan_cases cuts duration Hne) as Hc.
  destruct (cut_plan cuts duration) as [keep|code detail].
  - destruct Hc as [-> _]. split; [|lra].
    eapply Forall_impl; [exact Hcl|]. simpl. intros g (_ & Hg1 & Hg2).
    split; [exact Hg1|].
    apply List.Forall_forall. intros c Hc. rewrite List.Forall_forall in Hg2.
    apply Hg2, sorted_In, Hc.
  - destruct Hc as [-> Hk]. split; [reflexivity|].
    rewrite Hk in Hlen. simpl in Hlen. lra.
Qed.

Lemma cut_keeps_the_complement_witness :
  Forall (proper 10) [mkCutSegment 6 8; mkCutSegment 1 3]
  /\ cut_plan [mkCutSegment 6 8; mkCutSegment 1 3] 10
     = OK [mkSegment 0 1; mkSegment 3 6; mkSegment 8 10].
Proof.
  assert (Hp : Forall (proper 10) [mkCutSegment 6 8; mkCutSegment 1 3]).
  { repeat constructor; simpl; lra. }
  assert (Hd : disjoint [mkCutSegment 6 8; mkCutSegment 1 3]).
  { simpl. split; [|split; [constructor|exact I]].
    constructor; [|constructor]. right. simpl. lra. }
  split; [exact Hp|].
  pose proof (cut_keeps_the_complement [mkCutSegment 6 8; mkCutSegment 1 3] 10
                ltac:(discriminate) Hp Hd) as H.
  destruct (cut_plan _ 10) eqn:E; vm_compute in E; [|discriminate E].
  inversion E. reflexivity.
Defined.

(** X17.  Overlapping cuts are not merged: when a cut lies inside the one
    before it, the loop restarts from the end of the inner cut, and the
    tail of the outer cut is kept. *)
Theorem nested_cut_is_kept a b duration :
  cut_start a <= cut_start b -> cut_end b < cut_end a -> cut_end a <= duration ->
  exists keep g,
    cut_plan [a; b] duration = OK keep /\ In g keep
    /\ seg_start g = cut_end b /\ seg_end g = duration
    /\ seg_start g < cut_end a <= seg_end g.
Proof.
  intros Hs He Hd. unfold cut_plan.
  assert (Hsort : sorted [a; b] = [a; b]).
  { simpl. apply Qleb_true in Hs. rewrite Hs. reflexivity. }
  rewrite Hsort, keep_segments_from. cbn [keep_from].
  assert (E : Qltb (cut_end b) duration = true) by (apply Qltb_true; lra).
  rewrite E.
  set (g := mkSegment (cut_end b) duration).
  fold g.
  generalize (if Qltb 0 (cut_start a) then [mkSegment 0 (cut_start a)] else []).
  generalize (if Qltb (cut_end a) (cut_start b)
              then [mkSegment (cut_end a) (cut_start b)] else []).
  intros p2 p1.
  assert (Hin : In g (p1 ++ p2 ++ [g])).
  { rewrite !in_app_iff. right. right. left. reflexivity. }
  destruct (p1 ++ p2 ++ [g]) as [|x l]; [destruct Hin|].
  exists (x :: l), g. simpl. repeat split; auto; lra.
Qed.

Lemma nested_cut_is_kept_witness :
  exists keep, cut_plan [mkCutSegment 0 10; mkCutSegment 2 5] 20 = OK keep
               /\ In (mkSegment 5 20) keep.
Proof.
  destruct (nested_cut_is_kept (mkCutSegment 0 10) (mkCutSegment 2 5) 20)
    as (keep & g & H & Hin & Hs & He & _); simpl; try lra.
  exists keep. split; [exact H|]. destruct g as [s e]. simpl in Hs, He. subst. exact Hin.
Defined.

End Cutting.

(** ** Stage 10: publication slots *)

Section Scheduling.
Import Step10Schedule.
Local Open Scope Z_scope.

Lemma top_days_spec w :
  w ∈ take 4 BEST_DAYS <-> w = 1 \/ w = 2 \/ w = 3 \/ w = 5.
Proof.
  cbn [take BEST_DAYS]. rewrite !elem_of_cons, elem_of_nil. tauto.
Qed.

Lemma weekday_range day : 0 <= weekday day < 7.
Proof. unfold weekday. apply Z.mod_pos_bound. lia. Qed.

Lemma weekday_succ day : weekday (day + 1) = (weekday day + 1) mod 7.
Proof.
  unfold weekday. replace (day + 1 + 6) with ((day + 6) + 1) by lia.
  rewrite (Z.add_mod (day + 6) 1 7) by lia. reflexivity.
Qed.

(** The search stops on the first of the four best days, at most two days
    on. *)
Lemma next_best_day_spec n target :
  exists k,
    0 <= k <= 2 /\ next_best_day (S (S (S n))) target = target + k
    /\ weekday (target + k) ∈ take 4 BEST_DAYS
    /\ forall j, 0 <= j < k -> weekday (target + j) ∉ take 4 BEST_DAYS.
Proof.
  pose proof (weekday_range target) as Hr.
  pose proof (weekday_succ target) as H1.
  pose proof (weekday_succ (target + 1)) as H2.
  assert (Hw : weekday target = 0 \/ weekday target = 1 \/ weekday target = 2
               \/ weekday target = 3 \/ weekday target = 4 \/ weekday target = 5
               \/ weekday target = 6) by lia.
  assert (Hin : forall d, weekday d = 1 \/ weekday d = 2 \/ weekday d = 3 \/ weekday d = 5 ->
                bool_decide (weekday d ∈ take 4 BEST_DAYS) = true).
  { intros d Hd. apply bool_decide_eq_true_2, top_days_spec, Hd. }
  assert (Hout : forall d, weekday d = 0 \/ weekday d = 4 \/ weekday d = 6 ->
                 bool_decide (weekday d ∈ take 4 BEST_DAYS) = false).
  { intros d Hd. apply bool_decide_eq_false_2. rewrite top_days_spec. lia. }
  cbn [next_best_day].
  destruct Hw as [E|[E|[E|[E|[E|[E|E]]]]]].
  - rewrite E in H1. change ((0 + 1) mod 7) with 1 in H1.
    exists 1. rewrite (Hout target), (Hin (target + 1)) by lia.
    split; [lia|]. split; [reflexivity|]. split; [apply top_days_spec; lia|].
    intros j Hj. replace j with 0 by lia. rewrite Z.add_0_r, top_days_spec. lia.
  - exists 0. rewrite Z.add_0_r, (Hin target) by lia.
    split; [lia|]. split; [reflexivity|]. split; [apply top_days_spec; lia|]. intros j Hj; lia.
  - exists 0. rewrite Z.add_0_r, (Hin target) by lia.
    split; [lia|]. split; [reflexivity|]. split; [apply top_days_spec; lia|]. intros j Hj; lia.
  - exists 0. rewrite Z.add_0_r, (Hin target) by lia.
    split; [lia|]. split; [reflexivity|]. split; [apply top_days_spec; lia|]. intros j Hj; lia.
  - rewrite E in H1. change ((4 + 1) mod 7) with 5 in H1.
    exists 1. rewrite (Hout target), (Hin (target + 1)) by lia.
    split; [lia|]. split; [reflexivity|]. split; [apply top_days_spec; lia|].
    intros j Hj. replace j with 0 by lia. rewrite Z.add_0_r, top_days_spec. lia.
  - exists 0. rewrite Z.add_0_r, (Hin target) by lia.
    split; [lia|]. split; [reflexivity|]. split; [apply top_days_spec; lia|]. intros j Hj; lia.
  - rewrite E in H1. change ((6 + 1) mod 7) with 0 in H1.
    rewrite H1 in H2. change ((0 + 1) mod 7) with 1 in H2.
    exists 2. rewrite (Hout target), (Hout (target + 1)), (Hin (target + 1 + 1)) by lia.
    replace (target + 1 + 1) with (target + 2) in * by lia.
    split; [lia|]. split; [reflexivity|]. split; [apply top_days_spec; lia|].
    intros j Hj. assert (Hj' : j = 0 \/ j = 1) by lia.
    destruct Hj' as [-> | ->]; [rewrite Z.add_0_r|]; rewrite top_days_spec; lia.
Qed.

Lemma optimal_hour_index offset_days :
  (Z.to_nat (offset_days mod Z.of_nat (length OPTIMAL_HOURS)) < length OPTIMAL_HOURS)%nat.
Proof.
  pose proof (Z.mod_pos_bound offset_days (Z.of_nat (length OPTIMAL_HOURS))) as H.
  simpl in *. lia.
Qed.

(** X18.  [get_next_optimal_date] always finds a day: the day it returns
    is a Tuesday, Wednesday, Thursday or Saturday, the first one from the
    day after [start_from] plus the offset, hence at most two days later;
    the hour is one of [OPTIMAL_HOURS]. *)
Theorem optimal_date_is_first_best_day start_from offset_days :
  let target := start_from + (1 + offset_days) in
  let '(day, hour) := get_next_optimal_date start_from offset_days in
  weekday day ∈ [1; 2; 3; 5]
  /\ target <= day <= target + 2
  /\ (forall d, target <= d < day -> weekday d ∉ [1; 2; 3; 5])
  /\ hour ∈ OPTIMAL_HOURS.
Proof.
  cbv zeta. unfold get_next_optimal_date.
  destruct (next_best_day_spec 11 (start_from + (1 + offset_days)))
    as (k & Hk & -> & Hw & Hmin).
  split; [exact Hw|]. split; [lia|]. split.
  - intros d Hd. replace d with (start_from + (1 + offset_days) + (d - (start_from + (1 + offset_days)))) by lia.
    apply Hmin. lia.
  - apply list_elem_of_In, nth_In, optimal_hour_index.
Qed.

Lemma optimal_hours_distinct : List.NoDup OPTIMAL_HOURS.
Proof.
  unfold OPTIMAL_HOURS.
  repeat (constructor; [simpl; intuition discriminate|]). constructor.
Qed.

Lemma slots_differ now o1 o2 :
  o1 < o2 -> get_next_optimal_date now o1 <> get_next_optimal_date now o2.
Proof.
  intros Hlt. unfold get_next_optimal_date.
  destruct (next_best_day_spec 11 (now + (1 + o1))) as (k1 & Hk1 & -> & _).
  destruct (next_best_day_spec 11 (now + (1 + o2))) as (k2 & Hk2 & -> & _).
  intros H. inversion H as [[Hd Hh]].
  assert (Hgap : o2 - o1 = 1 \/ o2 - o1 = 2) by lia.
  apply (proj1 (NoDup_nth OPTIMAL_HOURS EmptyString) optimal_hours_distinct) in Hh;
    try apply optimal_hour_index.
  apply Z2Nat.inj in Hh; try (apply Z.mod_pos_bound; simpl; lia).
  cbn [length OPTIMAL_HOURS] in Hh. change (Z.of_nat 6) with 6 in Hh.
  assert (Hm : (o2 - o1) mod 6 = 0).
  { rewrite Zminus_mod, Hh, Z.sub_diag. reflexivity. }
  destruct Hgap as [Hg|Hg]; rewrite Hg in Hm; discriminate Hm.
Qed.

(** X19.  No two calls of [get_next_optimal_date] from the same day with
    different offsets give the same slot: the days can coincide, the
    [(day, hour)] pairs cannot. *)
Theorem optimal_slots_differ now o1 o2 :
  o1 <> o2 -> get_next_optimal_date now o1 <> get_next_optimal_date now o2.
Proof.
  intros Hne H. destruct (Z.lt_trichotomy o1 o2) as [Hlt|[Heq|Hgt]].
  - exact (slots_differ now o1 o2 Hlt H).
  - exact (Hne Heq).
  - exact (slots_differ now o2 o1 Hgt (eq_sym H)).
Qed.

(** Day 5 is a Friday: offsets 1 and 2 both land on the Tuesday after,
    at different hours. *)
Lemma optimal_slots_differ_witness :
  (get_next_optimal_date 5 1).1 = (get_next_optimal_date 5 2).1
  /\ get_next_optimal_date 5 1 <> get_next_optimal_date 5 2.
Proof.
  split; [reflexivity|].
  apply (optimal_slots_differ 5 1 2). discriminate.
Defined.

Lemma optimal_hour_listed now offset_days :
  In (get_next_optimal_date now offset_days).2 OPTIMAL_HOURS.
Proof. apply nth_In, optimal_hour_index. Qed.

(** X20.  The uploads [prepare_schedule] plans never share a publication
    slot: the main video, the classroom version and every short get
    pairwise different [(scheduled_date, scheduled_time)]. *)
Theorem planned_slots_distinct now has_illustrated has_nosilence shorts_files :
  NoDup (slot <$> planned_uploads now has_illustrated has_nosilence shorts_files).
Proof.
  unfold planned_uploads.
  pose proof (slots_differ now) as Hdiff.
  pose proof (optimal_hour_listed now) as Hhour.
  assert (Hten : ~ In "10:00"%string OPTIMAL_HOURS).
  { simpl. intuition discriminate. }
  assert (H18 : (get_next_optimal_date now 0).2 <> "10:00"%string) by discriminate.
  set (g := get_next_optimal_date now) in *. clearbody g.
  set (shorts := match shorts_files with Some files => _ | None => [] end).
  assert (Hshape : forall u, u ∈ shorts -> exists i : nat, slot u = g (1 + Z.of_nat i)).
  { subst shorts. destruct shorts_files as [files|]; intros u Hu; [|inversion Hu].
    apply list_elem_of_lookup in Hu as [i Hi]. rewrite list_lookup_imap in Hi.
    destruct (files !! i) as [f|]; [|discriminate Hi].
    cbn [fmap option_fmap option_map] in Hi. injection Hi as <-.
    exists i. destruct (g (1 + Z.of_nat i)) as [d t]. reflexivity. }
  assert (Hshorts : NoDup (slot <$> shorts)).
  { subst shorts. destruct shorts_files as [files|]; [|constructor].
    apply NoDup_alt. intros i j x Hi Hj.
    rewrite list_lookup_fmap, list_lookup_imap in Hi, Hj.
    destruct (files !! i) as [fi|]; [|discriminate Hi].
    destruct (files !! j) as [fj|]; [|discriminate Hj].
    cbn [fmap option_fmap option_map] in Hi, Hj.
    assert (E : g (1 + Z.of_nat i) = g (1 + Z.of_nat j)).
    { destruct (g (1 + Z.of_nat i)) as [d t]. destruct (g (1 + Z.of_nat j)) as [d' t'].
      unfold slot in Hi, Hj. cbn [scheduled_date scheduled_time] in Hi, Hj. congruence. }
    destruct (Z.lt_trichotomy (1 + Z.of_nat i) (1 + Z.of_nat j)) as [Hlt|[Heq|Hgt]];
      [exfalso; exact (Hdiff _ _ Hlt E)|lia|exfalso; exact (Hdiff _ _ Hgt (eq_sym E))]. }
  assert (Hmain : forall u, u ∈ shorts -> slot u <> g 0).
  { intros u Hu E. destruct (Hshape u Hu) as [i Hi]. rewrite Hi in E.
    apply (Hdiff 0 (1 + Z.of_nat i)); [lia|]. symmetry. exact E. }
  assert (Hclass : forall u, u ∈ shorts -> (slot u).2 <> "10:00"%string).
  { intros u Hu E. destruct (Hshape u Hu) as [i Hi]. rewrite Hi in E.
    apply Hten. rewrite <- E. apply Hhour. }
  destruct (g 0) as [d0 t0]. cbn [snd] in H18.
  destruct has_illustrated, has_nosilence;
    cbn [app fmap list_fmap slot scheduled_date scheduled_time];
    fold (fmap slot shorts); try exact Hshorts.
  - apply NoDup_cons. split.
    + rewrite elem_of_cons. intros [H|H].
      { unfold slot in H. cbn [scheduled_date scheduled_time] in H. congruence. }
      apply list_elem_of_fmap in H as (u & Hu & Hin). exact (Hmain u Hin (eq_sym Hu)).
    + apply NoDup_cons. split; [|exact Hshorts].
      intros H. apply list_elem_of_fmap in H as (u & Hu & Hin).
      apply (Hclass u Hin). rewrite <- Hu. reflexivity.
  - apply NoDup_cons. split; [|exact Hshorts].
    intros H. apply list_elem_of_fmap in H as (u & Hu & Hin).
    exact (Hmain u Hin (eq_sym Hu)).
  - apply NoDup_cons. split; [|exact Hshorts].
    intros H. apply list_elem_of_fmap in H as (u & Hu & Hin).
    apply (Hclass u Hin). rewrite <- Hu. reflexivity.
Qed.

End Scheduling.

(** ** B-roll clips, and the life of a project *)

Section ClipsAndLifecycle.
Import QAux Artifacts Step7Clips Database Tasks Projects Lifecycle Examples.

(** X21.  A clip that [integrate_broll] prepares lies inside the video:
    its timestamp is in [[0, video_duration)], its duration is cut so that
    it ends by the end of the video, never exceeds [broll_duration] or the
    clip's own duration, and is positive when those two are. *)
Theorem planned_clip_inside broll_duration video_duration c timestamp duration :
  plan_clip broll_duration video_duration c = Some (timestamp, duration) ->
  (0 <= timestamp /\ timestamp < video_duration
   /\ timestamp + duration <= video_duration
   /\ duration <= broll_duration /\ duration <= clip_duration c
   /\ (0 < broll_duration -> 0 < clip_duration c -> 0 < duration))%Q.
Proof.
  unfold plan_clip.
  destruct (Qltb (clip_timestamp c) 0) eqn:E1; [discriminate|].
  destruct (Qleb video_duration (clip_timestamp c)) eqn:E2; [discriminate|].
  apply Qltb_false in E1. apply Qleb_false in E2. simpl.
  destruct (Qltb video_duration _) eqn:E3; intros H; inversion H; subst; clear H.
  - apply Qltb_true in E3. revert E3. qcases; intros; repeat split; lra.
  - apply Qltb_false in E3. revert E3. qcases; intros; repeat split; lra.
Qed.

Lemma planned_clip_inside_witness :
  plan_clip 3 10 (mkClip "broll/a.mp4" 8 5) = Some (8%Q, (10 - 8)%Q)
  /\ (8 + (10 - 8) <= 10)%Q.
Proof.
  split; [reflexivity|].
  exact (proj1 (proj2 (proj2
    (planned_clip_inside 3 10 (mkClip "broll/a.mp4" 8 5) 8 (10 - 8)%Q eq_refl)))).
Defined.

Local Open Scope Z_scope.

Lemma find_id_app i docs more :
  find_id i (docs ++ more)
  = match find_id i docs with Some p => Some p | None => find_id i more end.
Proof.
  induction docs as [|[j q] r IH]; simpl; [reflexivity|].
  destruct (bool_decide (j = i)); [reflexivity|exact IH].
Qed.

Lemma find_folder_app name docs more :
  find_folder name (docs ++ more)
  = match find_folder name docs with Some x => Some x | None => find_folder name more end.
Proof.
  induction docs as [|[j q] r IH]; simpl; [reflexivity|].
  destruct (bool_decide (folder_name q = name)); [reflexivity|exact IH].
Qed.

Lemma find_id_absent i docs : i ∉ map fst docs -> find_id i docs = None.
Proof.
  induction docs as [|[j q] r IH]; simpl; [reflexivity|]. intros H.
  rewrite bool_decide_eq_false_2 by (intros ->; apply H; left).
  apply IH. intros Hr. apply H. right. exact Hr.
Qed.

Lemma find_folder_absent name docs :
  find_folder name docs = None -> name ∉ map (fun doc => folder_name doc.2) docs.
Proof.
  induction docs as [|[j q] r IH]; simpl; intros H Hin; [inversion Hin|].
  destruct (bool_decide (folder_name q = name)) eqn:E; [discriminate|].
  apply bool_decide_eq_false in E.
  apply elem_of_cons in Hin as [Hin|Hin]; [congruence|]. exact (IH H Hin).
Qed.

(** X22.  [POST /projects] keeps the registry keyed by folder: with a
    fresh id from the collection, a project is created exactly when no
    project has the folder yet (otherwise 400 and nothing changes); the
    new project is [created] with progress 0 and no current step, it is
    the one its folder name and its id lead to, the other projects read as
    before, and ids and folders stay unique. *)
Theorem create_keeps_folders_unique inserted_id folder d :
  is_connected d = true -> unique_ids d -> unique_folders d ->
  inserted_id ∉ map fst (projects d) -> inserted_id <> EmptyString ->
  let '(d', r) := create_project_endpoint inserted_id folder d in
  unique_ids d' /\ unique_folders d'
  /\ match get_project_by_folder d folder with
     | Some _ => d' = d /\ exists detail, r = HTTPException 400 detail
     | None =>
         r = OK inserted_id
         /\ get_project d' inserted_id = Some (new_project folder None)
         /\ get_project_by_folder d' folder = Some (inserted_id, new_project folder None)
         /\ (forall j, j <> inserted_id -> get_project d' j = get_project d j)
         /\ status (new_project folder None) = "created"%string
         /\ progress (new_project folder None) = 0
         /\ current_step (new_project folder None) = None
     end.
Proof.
  intros Hc Hu Hf Hfresh Hne. unfold create_project_endpoint, get_project_by_folder.
  rewrite Hc. simpl negb. cbv iota.
  destruct (find_folder folder (projects d)) as [[j q]|] eqn:E.
  - split; [exact Hu|]. split; [exact Hf|]. split; [reflexivity|]. eauto.
  - unfold create_project. rewrite Hc. unfold truthy.
    rewrite (bool_decide_eq_false_2 _ Hne). simpl negb. cbv iota.
    destruct d as [c docs]. simpl in Hc. subst c.
    unfold unique_ids, unique_folders, get_project, is_connected in *. simpl in *.
    split; [|split].
    + rewrite map_app. apply NoDup_app. split; [exact Hu|]. split.
      * intros x Hx Hin. apply list_elem_of_singleton in Hin. subst x. exact (Hfresh Hx).
      * apply NoDup_singleton.
    + rewrite map_app. apply NoDup_app. split; [exact Hf|]. split.
      * intros x Hx Hin. apply list_elem_of_singleton in Hin. subst x.
        exact (find_folder_absent _ _ E Hx).
      * apply NoDup_singleton.
    + split; [reflexivity|]. split.
      * rewrite find_id_app, (find_id_absent _ _ Hfresh). simpl.
        rewrite bool_decide_eq_true_2 by reflexivity. reflexivity.
      * split.
        -- rewrite find_folder_app, E. simpl.
           rewrite bool_decide_eq_true_2 by reflexivity. reflexivity.
        -- split; [|auto]. intros j Hj. rewrite find_id_app.
           destruct (find_id j docs); [reflexivity|]. simpl.
           rewrite bool_decide_eq_false_2 by congruence. reflexivity.
Qed.

Lemma create_keeps_folders_unique_witness :
  unique_ids (db sample_world)
  /\ (create_project_endpoint "p2" "video_2" (db sample_world)).2 = OK "p2"%string.
Proof.
  split; [exact sample_world_unique|].
  assert (Hf : unique_folders (db sample_world)).
  { unfold unique_folders. vm_compute. apply NoDup_singleton. }
  assert (Hfresh : "p2"%string ∉ map fst (projects (db sample_world))).
  { vm_compute. intros H. apply list_elem_of_singleton in H. discriminate H. }
  pose proof (create_keeps_folders_unique "p2" "video_2" (db sample_world)
                eq_refl sample_world_unique Hf Hfresh ltac:(discriminate)) as H.
  destruct (create_project_endpoint "p2" "video_2" (db sample_world)) as [d' r] eqn:E.
  destruct H as (_ & _ & H).
  assert (Hnone : get_project_by_folder (db sample_world) "video_2" = None) by reflexivity.
  rewrite Hnone in H. exact (proj1 H).
Defined.





End ClipsAndLifecycle.

(** ** Starting a pipeline by hand *)

Section ManualStart.
Import Artifacts Database Tasks Projects Control Examples.
Local Open Scope Z_scope.

Lemma partial_chain_in_range video_folder a b :
  1 <= a <= 11 -> a <= b ->
  stages <$> chain_of (call_partial_pipeline video_folder a b)
  = Some (range a (Z.min b 11 + 1)).
Proof.
  intros Ha Hab. cbn [chain_of].
  destruct (Z_le_gt_dec b 11) as [Hb|Hb].
  - rewrite Z.min_l by lia.
    destruct (partial_pipeline_in_table video_folder a b) as (c & -> & Hc); try lia.
    simpl. rewrite Hc. reflexivity.
  - rewrite partial_pipeline_clamp, Z.min_r by lia.
    destruct (partial_pipeline_in_table video_folder a 11) as (c & -> & Hc); try lia.
    simpl. rewrite Hc. reflexivity.
Qed.

Lemma partial_chain_empty video_folder a b :
  b < a \/ b < 1 \/ 11 < a ->
  chain_of (call_partial_pipeline video_folder a b) = None.
Proof.
  intros H. cbn [chain_of]. unfold process_partial_pipeline.
  rewrite omap_nothing; [reflexivity|].
  intros x Hx. apply range_elem in Hx. rewrite steps_outside by lia. reflexivity.
Qed.

(** X24.  [POST /projects/{id}/start] does not look at the range it is
    given: for an existing project and a reachable broker it always answers
    with a new handle, records it and marks the project [processing],
    leaving files and the current step alone.  The submission it queues
    runs the stages [start_step] to [min(end_step, 11)] when the start step
    is in the table, and no stage at all for an empty or out-of-table
    range, in which case the project stays [processing] with nothing to
    move it on. *)
Theorem start_marks_processing project_id start_step end_step w project :
  get_project (db w) project_id = Some project ->
  accepting (mq w) = true ->
  let out := start_project_pipeline project_id start_step end_step w in
  let handle := uuid4 (mq w) (issued (mq w)) in
  out.2 = OK (mkStartBody handle project_id)
  /\ fs out.1 = fs w
  /\ (exists p', get_project (db out.1) project_id = Some p'
        /\ status p' = "processing"%string /\ celery_task_id p' = Some handle
        /\ current_step p' = current_step project
        /\ progress p' = progress project)
  /\ exists m, queue (mq out.1) = queue (mq w) ++ [(handle, m)]
       /\ (1 <= start_step <= 11 -> start_step <= end_step ->
           stages <$> chain_of m = Some (range start_step (Z.min end_step 11 + 1)))
       /\ (end_step < start_step \/ end_step < 1 \/ 11 < start_step ->
           chain_of m = None).
Proof.
  intros Hg Ha. cbv zeta. unfold start_project_pipeline, is_connected, delay.
  rewrite (get_project_connected _ _ _ Hg), Hg, Ha. simpl negb. cbv iota.
  cbn [fst snd db fs mq queue].
  split; [reflexivity|]. split; [reflexivity|]. split.
  - eexists. split; [apply get_project_update, Hg|]. simpl. auto.
  - eexists. split; [reflexivity|]. split.
    + apply partial_chain_in_range.
    + apply partial_chain_empty.
Qed.

Lemma start_marks_processing_witness :
  get_project (db sample_world) "p1" = Some sample_project
  /\ accepting (mq sample_world) = true
  /\ (start_project_pipeline "p1" 12 12 sample_world).2
     = OK (mkStartBody (uuid4 sample_broker 1%nat) "p1").
Proof.
  split; [reflexivity|]. split; [reflexivity|].
  exact (proj1 (start_marks_processing "p1" 12 12 sample_world sample_project
                  eq_refl eq_refl)).
Defined.

End ManualStart.

(** ** Stage 3 after stage 2 *)

Section SourcesFollow.
Import QAux Artifacts Step2Silence Step2Stage Step3CutSources Examples.

Lemma remove_silences_success ff threshold_db min_silence padding
    (dir : gmap string entry) r :
  (remove_silences ff threshold_db min_silence padding dir).2 = Done r ->
  success r = true ->
  exists input, dir !! "original.mp4" = Some (File input)
                /\ dir !! "segments.json" <> Some Folder.
Proof.
  unfold remove_silences, write_file.
  destruct (dir !! "original.mp4") as [[input|]|]; simpl;
    try (intros H; inversion H; subst; discriminate).
  intros H Hs. exists input. split; [reflexivity|].
  destruct (dir !! "segments.json") as [[c|]|]; try discriminate.
Qed.

Lemma run_cut_encoded cut c segments audio output (dir : gmap string entry) out :
  dir !! output <> Some Folder ->
  cut c segments audio = Encoded out ->
  run_cut cut (File c) segments audio output dir = (<[output := File out]> dir, true).
Proof.
  intros Hd Hc. unfold run_cut. rewrite Hc.
  destruct (dir !! output) as [[x|]|]; try reflexivity. congruence.
Qed.

(** X25.  Stage 3 cuts the sources where stage 2 cut the recording: after
    a successful [remove_silences], [cut_sources] hands the encoder, for
    [screen.mp4] with its audio and for [webcam.mp4] without, exactly the
    segments stage 2 computed from [original.mp4]; when both runs succeed
    the stage succeeds and the two outputs are what those runs produced. *)
Theorem sources_cut_like_the_recording ff cut threshold_db min_silence padding
    (dir : gmap string entry) r screen webcam out_screen out_webcam :
  let after2 := remove_silences ff threshold_db min_silence padding dir in
  after2.2 = Done r -> success r = true ->
  dir !! "screen.mp4" = Some (File screen) ->
  dir !! "webcam.mp4" = Some (File webcam) ->
  (forall c, dir !! "temp_cut" <> Some (File c)) ->
  dir !! "screennosilence.mp4" <> Some Folder ->
  dir !! "webcamnosilence.mp4" <> Some Folder ->
  (forall input, dir !! "original.mp4" = Some (File input) ->
     let segments := get_speech_segments (silencedetect ff input threshold_db min_silence)
                                         (probe_duration ff input) padding in
     cut screen segments true = Encoded out_screen
     /\ cut webcam segments false = Encoded out_webcam) ->
  let after3 := cut_sources ff cut threshold_db min_silence padding after2.1 in
  after3.2 = Done (mkResult true None)
  /\ after3.1 !! "screennosilence.mp4" = Some (File out_screen)
  /\ after3.1 !! "webcamnosilence.mp4" = Some (File out_webcam)
  /\ after3.1 !! "nosilence.mp4" = after2.1 !! "nosilence.mp4".
Proof.
  cbv zeta. intros Hr Hs Hscreen Hwebcam Htemp Ho1 Ho2 Hcut.
  destruct (remove_silences_success _ _ _ _ _ _ Hr Hs) as (input & Hin & Hseg).
  destruct (Hcut input Hin) as [Hc1 Hc2].
  pose proof (remove_silences_writes ff threshold_db min_silence padding dir input
                Hin Hseg) as Hdoc.
  pose proof (remove_silences_frame ff threshold_db min_silence padding dir) as Hframe.
  set (dir2 := (remove_silences ff threshold_db min_silence padding dir).1) in *.
  unfold cut_sources.
  rewrite (Hframe "screen.mp4"), Hscreen by discriminate.
  rewrite Hdoc. cbn [segments_document sj_segments].
  assert (Ht2 : dir2 !! "temp_cut" = dir !! "temp_cut") by (apply Hframe; discriminate).
  assert (Hnot : match dir2 !! "temp_cut" with Some (File _) => False | _ => True end).
  { rewrite Ht2. destruct (dir !! "temp_cut") as [[c|]|] eqn:E; auto.
    exact (Htemp c eq_refl). }
  set (segments := get_speech_segments _ _ _) in *.
  assert (Hgo : forall (T : Type) (a b : T),
            match dir2 !! "temp_cut" with Some (File _) => a | _ => b end = b).
  { intros T a b. destruct (dir2 !! "temp_cut") as [[c|]|]; [destruct Hnot|..]; reflexivity. }
  rewrite Hgo.
  rewrite (run_cut_encoded cut screen segments true "screennosilence.mp4" _ out_screen);
    [|rewrite lookup_delete_ne by discriminate; rewrite Hframe by discriminate; exact Ho1
     |exact Hc1].
  simpl negb. cbv iota.
  rewrite lookup_insert_ne by discriminate.
  rewrite lookup_delete_ne by discriminate.
  rewrite (Hframe "webcam.mp4"), Hwebcam by discriminate.
  rewrite (run_cut_encoded cut webcam segments false "webcamnosilence.mp4" _ out_webcam);
    [|rewrite lookup_insert_ne by discriminate;
      rewrite lookup_delete_ne by discriminate; rewrite Hframe by discriminate; exact Ho2
     |exact Hc2].
  simpl negb. cbv iota. cbn [fst snd].
  split; [reflexivity|]. split.
  - rewrite lookup_insert_ne by discriminate. apply lookup_insert_eq.
  - split; [apply lookup_insert_eq|].
    rewrite !lookup_insert_ne by discriminate. apply lookup_delete_ne. discriminate.
Qed.

Lemma sources_cut_like_the_recording_witness :
  (remove_silences sample_codec (-30) 1 (1 # 10) sample_dir).2 = Done (mkResult true None)
  /\ (cut_sources sample_codec (fun _ _ audio => Encoded (Media (if audio then 3 else 4)))
        (-30) 1 (1 # 10)
        (remove_silences sample_codec (-30) 1 (1 # 10) sample_dir).1).2
     = Done (mkResult true None).
Proof.
  split; [reflexivity|].
  refine (proj1 (sources_cut_like_the_recording sample_codec
            (fun _ _ audio => Encoded (Media (if audio then 3 else 4)))
            (-30) 1 (1 # 10) sample_dir (mkResult true None) (Media 7) (Media 8)
            (Media 3) (Media 4) eq_refl eq_refl eq_refl eq_refl _ _ _ _)).
  - intros c. vm_compute. discriminate.
  - vm_compute. discriminate.
  - vm_compute. discriminate.
  - intros input _. split; reflexivity.
Defined.

End SourcesFollow.
